(** * mediathek-view-downloader: the result-resolution pipeline of [md.py]

    A shallow embedding of [src/md.py] and the properties of its result
    pipeline: pagination, topic disambiguation, season/episode extraction,
    sorting, season selection, quality resolution and file naming.

    Modelling conventions.
    - A Python [str] is a Rocq [string]; a character is the code point
      below 256 with that number, so the model covers Latin-1 text.  On this
      range the regular expression class [\d] is [0-9], and [int()] accepts
      the white space 9..13, 32, 133 and 160.  [int()] refuses a numeral of
      more than 4300 digits, as the interpreter does by default.
    - A search hit is a Python [dict] with string keys whose values are
      [None] or a [str]: a [gmap string value].  [d.get(k)] is a lookup that
      defaults to [None], [d[k]] raises [KeyError] on a missing key and
      [d[k] = v] is an insert.
    - Printing, prompting, reading a line, downloading and leaving the
      program are effects on a [world]: the lines still to be read from
      standard input and the trace of what the program did so far. *)

From stdpp Require Import base option list strings gmap sorting.
From Stdlib Require Import ZArith Ascii Lia.

Local Open Scope string_scope.
Local Open Scope list_scope.
Local Open Scope Z_scope.

(** ** Characters and the builtins on strings *)

Module Py.

Definition ord (c : ascii) : Z := Z.of_N (N_of_ascii c).

(** [\d] and the digits of [int()], on code points below 256. *)
Definition is_digit (c : ascii) : bool := (48 <=? ord c) && (ord c <=? 57).

(** The class [[a-zA-Z0-9]]. *)
Definition is_alnum (c : ascii) : bool :=
  is_digit c
  || ((65 <=? ord c) && (ord c <=? 90))
  || ((97 <=? ord c) && (ord c <=? 122)).

(** White space skipped by [int()] around the number. *)
Definition is_space (c : ascii) : bool :=
  ((9 <=? ord c) && (ord c <=? 13))
  || (ord c =? 32) || (ord c =? 133) || (ord c =? 160).

Definition digit_value (c : ascii) : Z := ord c - 48.

Definition chr (n : Z) : ascii := ascii_of_N (Z.to_N n).

(** [str.lower()] on one character. *)
Definition lower_char (c : ascii) : ascii :=
  let n := ord c in
  if ((65 <=? n) && (n <=? 90))
     || ((192 <=? n) && (n <=? 222) && negb (n =? 215))
  then chr (n + 32) else c.

Fixpoint lower (s : string) : string :=
  match s with
  | EmptyString => EmptyString
  | String c r => String (lower_char c) (lower r)
  end.

Fixpoint lstrip (s : string) : string :=
  match s with
  | String c r => if is_space c then lstrip r else s
  | EmptyString => EmptyString
  end.

Fixpoint all_chars (p : ascii -> bool) (s : string) : bool :=
  match s with
  | EmptyString => true
  | String c r => p c && all_chars p r
  end.

(** The digits of a decimal literal after its first digit: further digits,
    each optionally preceded by one underscore.  Returns the number read and
    what follows it; [None] when an underscore is not followed by a digit. *)
Fixpoint int_digits (acc : Z) (s : string) : option (Z * string) :=
  match s with
  | EmptyString => Some (acc, EmptyString)
  | String c r =>
      if is_digit c then int_digits (10 * acc + digit_value c) r
      else if Ascii.eqb c "_" then
        match r with
        | String d r' =>
            if is_digit d then int_digits (10 * acc + digit_value d) r'
            else None
        | EmptyString => None
        end
      else Some (acc, s)
  end.

Definition int_unsigned (s : string) : option Z :=
  match s with
  | String c r =>
      if is_digit c then
        match int_digits (digit_value c) r with
        | Some (n, rest) => if all_chars is_space rest then Some n else None
        | None => None
        end
      else None
  | EmptyString => None
  end.

(** The limit [sys.get_int_max_str_digits()] of the interpreter on the
    digits of a numeral that [int()] reads and [str()] writes, at its
    default. *)
Definition int_max_str_digits : Z := 4300.

(** The digits in a string.  In a string that [int()] can read, white space,
    a sign and underscores apart, these are the digits of the numeral. *)
Fixpoint count_digits (s : string) : Z :=
  match s with
  | EmptyString => 0
  | String c r => (if is_digit c then 1 else 0) + count_digits r
  end.

(** [int(s)] for a [str] in base 10; [None] is [ValueError]: the string is
    no numeral, or it has more digits than the limit. *)
Definition int (s : string) : option Z :=
  if int_max_str_digits <? count_digits s then None
  else
    match lstrip s with
    | String c r =>
        if Ascii.eqb c "+" then int_unsigned r
        else if Ascii.eqb c "-" then Z.opp <$> int_unsigned r
        else int_unsigned (String c r)
    | EmptyString => None
    end.

(** [str(n)] for an [int]: the decimal digits, most significant first.  The
    program writes lengths of lists and numbers that [int] has read, all of
    them within the limit on the digits. *)
Fixpoint str_digits (fuel : nat) (n : Z) (acc : string) : string :=
  let acc' := String (chr (48 + n mod 10)) acc in
  match fuel with
  | O => acc'
  | S fuel' => if n <? 10 then acc' else str_digits fuel' (n / 10) acc'
  end.

Definition str_nonneg (n : Z) : string :=
  str_digits (Z.to_nat (Z.log2 n)) n EmptyString.

Definition str (n : Z) : string :=
  if n <? 0 then String "-" (str_nonneg (- n)) else str_nonneg n.

Fixpoint zeros (k : nat) : string :=
  match k with
  | O => EmptyString
  | S k' => String "0" (zeros k')
  end.

(** The format [{n:02d}]: sign first, then zeros up to a width of two. *)
Definition format_02d (n : Z) : string :=
  let sign := if n <? 0 then "-" else "" in
  let body := str_nonneg (Z.abs n) in
  sign +:+ zeros (2 - String.length sign - String.length body) +:+ body.

End Py.

(** ** Values, records and effects *)

(** A Python value of a record field: [None] or a [str]. *)
Inductive value :=
| VNone
| VStr (s : string).

#[global] Instance value_eq_dec : EqDecision value.
Proof. solve_decision. Defined.

(** Truth value of a field in [if v:], [not v]. *)
Definition truthy (v : value) : bool :=
  match v with
  | VNone => false
  | VStr s => negb (String.eqb s "")
  end.

(** [f"{v}"]. *)
Definition format_value (v : value) : string :=
  match v with
  | VNone => "None"
  | VStr s => s
  end.

(** One search hit: a dict from field names to values. *)
Abbreviation SearchRecord := (gmap string value).

(** [d.get(k)] and [d.get(k, dflt)]. *)
Definition get (d : SearchRecord) (k : string) : value := default VNone (d !! k).
Definition get_or (d : SearchRecord) (k : string) (dflt : value) : value :=
  default dflt (d !! k).

Definition VIDEO_TYPE_EPISODE : string := "episode".
Definition VIDEO_TYPE_MOVIE : string := "movie".

Inductive exn :=
| SystemExit (code : Z)
| EOFError
| ValueError
| TypeError
| KeyError (key : string)
| IndexError
| NotImplementedError (msg : string).

#[global] Instance exn_eq_dec : EqDecision exn.
Proof. solve_decision. Defined.

(** How a computation ends.  [OutOfFuel] is not a behaviour of the program:
    it marks a run of the pagination loop cut off by the bound of the model. *)
Inductive outcome (A : Type) :=
| Ret (a : A)
| Raise (e : exn)
| OutOfFuel.
Arguments Ret {A} a.
Arguments Raise {A} e.
Arguments OutOfFuel {A}.

#[global] Instance outcome_ret : MRet outcome := fun A a => Ret a.
#[global] Instance outcome_bind : MBind outcome := fun A B f m =>
  match m with
  | Ret a => f a
  | Raise e => Raise e
  | OutOfFuel => OutOfFuel
  end.
#[global] Instance outcome_fmap : FMap outcome := fun A B f m =>
  match m with
  | Ret a => Ret (f a)
  | Raise e => Raise e
  | OutOfFuel => OutOfFuel
  end.

(** [d[k]]. *)
Definition subscript (d : SearchRecord) (k : string) : outcome value :=
  match d !! k with
  | Some v => Ret v
  | None => Raise (KeyError k)
  end.

(** [l[i]] for a non-negative or out-of-range index [i]; the code never
    indexes with a negative number. *)
Definition index {A} (l : list A) (i : Z) : outcome A :=
  if i <? 0 then Raise IndexError
  else match l !! Z.to_nat i with
       | Some x => Ret x
       | None => Raise IndexError
       end.

(** [int(v)] for a field value. *)
Definition int_value (v : value) : outcome Z :=
  match v with
  | VNone => Raise TypeError
  | VStr s => match Py.int s with
              | Some n => Ret n
              | None => Raise ValueError
              end
  end.

(** The body of a search request: one query over optional fields. *)
Record query := {
  fields : option (list string);
  query_text : string
}.

Record request := {
  queries : list query;
  sortBy : string;
  sortOrder : string;
  future : bool;
  offset : Z;
  size : Z
}.

(** What the pagination loop reads of a response: the status and
    [json().get("result", {}).get("results", [])]. *)
Record response := {
  status_code : Z;
  results : list SearchRecord
}.

Inductive event :=
| Print (text : string)
| Prompt (text : string)
| Post (body : request)
| MakeDirs (folder : string)
| DownloadVideo (url : value) (filepath filename : string)
| DownloadSubtitle (url : value) (filepath : string).

Record world := {
  stdin : list string;
  trace : list event
}.

#[global] Instance outcome_eq_dec `{EqDecision A} : EqDecision (outcome A).
Proof. solve_decision. Defined.
#[global] Instance query_eq_dec : EqDecision query.
Proof. solve_decision. Defined.
#[global] Instance request_eq_dec : EqDecision request.
Proof. solve_decision. Defined.
#[global] Instance event_eq_dec : EqDecision event.
Proof. solve_decision. Defined.
#[global] Instance world_eq_dec : EqDecision world.
Proof. solve_decision. Defined.

Definition io (A : Type) : Type := world -> outcome A * world.

Definition io_ret {A} (a : A) : io A := fun w => (Ret a, w).

Definition io_bind {A B} (m : io A) (k : A -> io B) : io B := fun w =>
  match m w with
  | (Ret a, w') => k a w'
  | (Raise e, w') => (Raise e, w')
  | (OutOfFuel, w') => (OutOfFuel, w')
  end.

Declare Scope io_scope.
Delimit Scope io_scope with io.
Notation "x <- m ;; k" := (io_bind m (fun x => k))
  (at level 100, m at next level, right associativity) : io_scope.
Notation "m ;; k" := (io_bind m (fun _ => k))
  (at level 100, right associativity) : io_scope.
Local Open Scope io_scope.

Definition lift {A} (o : outcome A) : io A := fun w => (o, w).

Definition raise {A} (e : exn) : io A := lift (Raise e).

Definition emit (e : event) : io unit := fun w =>
  (Ret tt, {| stdin := stdin w; trace := trace w ++ [e] |}).

Definition print (text : string) : io unit := emit (Print text).

(** [input(prompt)]: the prompt is written, then a line is read;
    end of input raises [EOFError]. *)
Definition input (prompt : string) : io string := fun w =>
  let tr := trace w ++ [Prompt prompt] in
  match stdin w with
  | line :: rest => (Ret line, {| stdin := rest; trace := tr |})
  | [] => (Raise EOFError, {| stdin := []; trace := tr |})
  end.

(** [exit(code)]. *)
Definition exit {A} (code : Z) : io A := raise (SystemExit code).

(** [try: body except ValueError: handler]. *)
Definition try_except_ValueError {A} (body handler : io A) : io A := fun w =>
  match body w with
  | (Raise ValueError, w') => handler w'
  | r => r
  end.

Definition out_of_fuel {A} : io A := lift OutOfFuel.

(** [while True: body], where [body] yields [Some a] when it leaves the loop
    with [a] and [None] when it goes round again. *)
Fixpoint while_true {A} (fuel : nat) (body : io (option A)) : io A :=
  match fuel with
  | O => out_of_fuel
  | S fuel' =>
      r <- body ;;
      match r with
      | Some a => io_ret a
      | None => while_true fuel' body
      end
  end.

(** A [while True] loop each of whose rounds reads a line before it goes
    round again: it runs at most once more than there are lines left. *)
Definition while_true_reading {A} (body : io (option A)) : io A := fun w =>
  while_true (S (length (stdin w))) body w.

Fixpoint for_each {A} (l : list A) (body : A -> io unit) : io unit :=
  match l with
  | [] => io_ret tt
  | x :: l' => body x ;; for_each l' body
  end.

(** [enumerate(l, start)]. *)
Fixpoint enumerate {A} (l : list A) (start : Z) : list (Z * A) :=
  match l with
  | [] => []
  | x :: l' => (start, x) :: enumerate l' (start + 1)
  end.

Definition len {A} (l : list A) : Z := Z.of_nat (length l).

Definition nl : string := String "010" EmptyString.

(** ** [sorted] *)

(** [sorted(l, key=key)] is a stable sort; insertion from the right is one,
    and a stable sort by a total preorder has one result only (see
    [sorted_unique]).  [le] is the order [<=] of the keys. *)
Section Sorted.
Context {A K : Type} (le : K -> K -> bool) (key : A -> K).

Fixpoint insert_by_key (x : A) (l : list A) : list A :=
  match l with
  | [] => [x]
  | y :: l' =>
      if le (key x) (key y) then x :: l else y :: insert_by_key x l'
  end.

Definition sorted (l : list A) : list A := foldr insert_by_key [] l.
End Sorted.

(** The order of Python tuples of two [int]s. *)
Definition pair_le (a b : Z * Z) : bool :=
  (a.1 <? b.1) || ((a.1 =? b.1) && (a.2 <=? b.2)).

(** ** Regular expressions of the program *)

Module Re.

(** The longest prefix of characters in a class, and the rest. *)
Fixpoint span (p : ascii -> bool) (s : string) : string * string :=
  match s with
  | String c r =>
      if p c then let '(a, b) := span p r in (String c a, b)
      else (EmptyString, s)
  | EmptyString => (EmptyString, EmptyString)
  end.

(** A literal text [p] matched at the start of [s]: what follows it. *)
Fixpoint literal (p s : string) : option string :=
  match p with
  | EmptyString => Some s
  | String c p' =>
      match s with
      | String d s' => if Ascii.eqb c d then literal p' s' else None
      | EmptyString => None
      end
  end.

(** A class repeated once or more, greedily: the group and what follows. *)
Definition some_of (p : ascii -> bool) (s : string)
    : option (string * string) :=
  match span p s with
  | (EmptyString, _) => None
  | (g, r) => Some (g, r)
  end.

(** [S(\d+)\/E(\d+)] matched at the start of [s]: groups 1 and 2.  Each
    [\d+] takes all the digits there are; giving digits back never helps,
    since what follows a group is not a digit ([/]) or nothing. *)
Definition match_season_episode (s : string) : option (string * string) :=
  r ← literal "S" s;
  '(g1, r1) ← some_of Py.is_digit r;
  r2 ← literal "/E" r1;
  '(g2, _) ← some_of Py.is_digit r2;
  Some (g1, g2).

(** [$]: the end of the string, or just before a newline that ends it. *)
Definition at_end (s : string) : bool :=
  String.eqb s "" || String.eqb s (String "010" "").

(** [\.([a-zA-Z0-9]+)(?:$)] matched at the start of [s]: group 1.  The
    group takes all the characters of the class there are; what follows a
    shorter group is one of them, not the end. *)
Definition match_extension (s : string) : option string :=
  r ← literal "." s;
  '(g, rest) ← some_of Py.is_alnum r;
  if at_end rest then Some g else None.

(** [re.search]: the match at the leftmost position that has one. *)
Fixpoint search {A} (m : string -> option A) (s : string) : option A :=
  match m s with
  | Some x => Some x
  | None =>
      match s with
      | String _ r => search m r
      | EmptyString => None
      end
  end.

End Re.

(** ** The program *)

(** [get_subtitle_url], lines 40-54. *)
Definition get_subtitle_url (video_info : SearchRecord) : value * string :=
  let subtitle_url := get video_info "url_subtitle" in
  let file_extension :=
    match subtitle_url with
    | VStr u =>
        if truthy subtitle_url then
          match Re.search Re.match_extension u with
          | Some g => "." +:+ g
          | None => ".srt"
          end
        else ".srt"
    | VNone => ".srt"
    end in
  (subtitle_url, file_extension).

(** [quality_map.get(quality)], lines 63-67. *)
Definition quality_map (quality : string) : option string :=
  if String.eqb quality "low" then Some "url_video_low"
  else if String.eqb quality "medium" then Some "url_video"
  else if String.eqb quality "hd" then Some "url_video_hd"
  else None.

(** The loop of lines 77-80: [video_url] is rebound at every step and the
    loop leaves at the first truthy one. *)
Fixpoint fallback (video_info : SearchRecord) (keys : list string)
    (video_url : value) : value :=
  match keys with
  | [] => video_url
  | q :: keys' =>
      let video_url := get video_info q in
      if truthy video_url then video_url
      else fallback video_info keys' video_url
  end.

(** Lines 82-87. *)
Definition video_file_extension (video_url : value) : string :=
  match video_url with
  | VStr u =>
      if truthy video_url then
        match Re.search Re.match_extension u with
        | Some g => "." +:+ g
        | None => ".mp4"
        end
      else ".mp4"
  | VNone => ".mp4"
  end.

(** [get_video_url_by_quality], lines 57-89. *)
Definition get_video_url_by_quality (video_info : SearchRecord)
    (quality : string) : io (value * string) :=
  quality <-
    match quality_map quality with
    | Some _ => io_ret quality
    | None =>
        print ("Warning: Quality '" +:+ quality
               +:+ "' not recognized. Defaulting to 'medium'.") ;;
        io_ret "medium"
    end ;;
  let url_key := quality_map quality in
  let video_url :=
    match url_key with
    | Some k => get video_info k
    | None => VNone
    end in
  let video_url :=
    if negb (truthy video_url)
    then fallback video_info ["url_video_hd"; "url_video"; "url_video_low"]
           video_url
    else video_url in
  io_ret (video_url, video_file_extension video_url).

(** The search transport: the response of the index to a request. *)
Section Transport.
Variable post : request -> response.

Definition requests_post (body : request) : io response :=
  emit (Post body) ;; io_ret (post body).

(** The loop of lines 101-129. *)
Fixpoint query_api_loop (fuel : nat) (query : string)
    (use_title_field use_topic_field include_future_content : bool)
    (offset size : Z) (all_results : list SearchRecord)
    : io (list SearchRecord) :=
  match fuel with
  | O => out_of_fuel
  | S fuel' =>
      let queries :=
        if use_title_field && use_topic_field
        then [{| fields := Some ["title"; "topic"]; query_text := query |}]
        else if use_title_field
        then [{| fields := Some ["title"]; query_text := query |}]
        else if use_topic_field
        then [{| fields := Some ["topic"]; query_text := query |}]
        else [{| fields := None; query_text := query |}] in
      let query_json :=
        {| queries := queries; sortBy := "timestamp"; sortOrder := "desc";
           future := include_future_content;
           offset := offset; size := size |} in
      response <- requests_post query_json ;;
      if negb (status_code response =? 200) then
        print ("Error querying API: " +:+ Py.str (status_code response)) ;;
        io_ret all_results
      else
        match results response with
        | [] => io_ret all_results
        | _ :: _ =>
            query_api_loop fuel' query use_title_field use_topic_field
              include_future_content (offset + size) size
              (all_results ++ results response)
        end
  end.

(** [query_api], lines 92-132. *)
Definition query_api (fuel : nat) (query : string)
    (use_title_field use_topic_field include_future_content : bool)
    : io (list SearchRecord) :=
  print ("Searching for '" +:+ query +:+ "'...") ;;
  all_results <-
    query_api_loop fuel query use_title_field use_topic_field
      include_future_content 0 100 [] ;;
  print ("Found " +:+ Py.str (len all_results) +:+ " results." +:+ nl) ;;
  io_ret all_results.
End Transport.

(** Lines 137-141: the set of the truthy topics. *)
Definition collect_topics (all_results : list SearchRecord) : gset string :=
  foldl (fun topics video_info =>
           match get video_info "topic" with
           | VStr topic =>
               if truthy (VStr topic) then topics ∪ {[topic]} else topics
           | VNone => topics
           end) ∅ all_results.

(** Line 142: [sorted(topics)], by the order of [str]. *)
Definition sorted_topics (all_results : list SearchRecord) : list string :=
  sorted String.leb id (elements (collect_topics all_results)).

Definition topic_prompt : string := "Select the topic number to download: ".

(** One round of the loop of lines 148-157. *)
Definition select_topic_round (topics : list string) : io (option string) :=
  try_except_ValueError
    (line <- input topic_prompt ;;
     choice <- lift (int_value (VStr line)) ;;
     if (1 <=? choice) && (choice <=? len topics) then
       selected_topic <- lift (index topics (choice - 1)) ;;
       io_ret (Some selected_topic)
     else
       print "Invalid selection. Try again." ;;
       io_ret None)
    (print "Please enter a valid number." ;;
     io_ret None).

(** [select_topic], lines 135-166. *)
Definition select_topic (all_results : list SearchRecord)
    : io (list SearchRecord * value) :=
  let topics := sorted_topics all_results in
  if 1 <? len topics then
    print "Multiple topics found:" ;;
    for_each (enumerate topics 1)
      (fun '(idx, topic) => print (Py.str idx +:+ ": " +:+ topic)) ;;
    selected_topic <- while_true_reading (select_topic_round topics) ;;
    let filtered_results :=
      filter (fun v => get v "topic" = VStr selected_topic) all_results in
    print (nl +:+ "Proceeding with topic: " +:+ selected_topic +:+ nl) ;;
    io_ret (filtered_results, VStr selected_topic)
  else if len topics =? 1 then
    topic0 <- lift (index topics 0) ;;
    print ("Only one topic found: " +:+ topic0 +:+ nl) ;;
    io_ret (all_results, VStr topic0)
  else
    print ("No topics found in results." +:+ nl) ;;
    io_ret ([], VNone).

(** The title as [re.search] receives it: [video_info.get("title", "")];
    a title that is [None] is not text. *)
Definition title_of (video_info : SearchRecord) : outcome string :=
  match get_or video_info "title" (VStr "") with
  | VStr t => Ret t
  | VNone => Raise TypeError
  end.

(** The body of the loop of lines 174-181. *)
Definition determine_season_and_episode_of (video_info : SearchRecord)
    : outcome SearchRecord :=
  t ← title_of video_info;
  match Re.search Re.match_season_episode t with
  | Some (g1, g2) =>
      Ret (<["episode" := VStr g2]> (<["season" := VStr g1]> video_info))
  | None =>
      Ret (<["episode" := VNone]> (<["season" := VNone]> video_info))
  end.

(** [determine_season_and_episode], lines 169-182. *)
Definition determine_season_and_episode (results : list SearchRecord)
    : outcome (list SearchRecord) :=
  mapM determine_season_and_episode_of results.

(** [valueOrElse], lines 185-192. *)
Definition valueOrElse (v : value) (dflt : Z) : Z :=
  match v with
  | VNone => dflt
  | VStr s =>
      match Py.int s with
      | Some n => n
      | None => dflt
      end
  end.

(** The key of line 200. *)
Definition season_episode_key (x : SearchRecord) : outcome (Z * Z) :=
  s ← subscript x "season";
  e ← subscript x "episode";
  Ret (valueOrElse s 0, valueOrElse e 0).

(** [sort_seasons_by_season_and_episode], lines 195-200: the keys are taken
    of every record first, then the records are sorted by them. *)
Definition sort_seasons_by_season_and_episode (seasons : list SearchRecord)
    : outcome (list SearchRecord) :=
  keys ← mapM season_episode_key seasons;
  Ret ((sorted pair_le fst (zip keys seasons)).*2).

(** The dict [seasons] of lines 211-215, in insertion order. *)
Abbreviation seasons_dict := (list (value * list SearchRecord)).

Fixpoint dict_lookup (seasons : seasons_dict) (k : value)
    : option (list SearchRecord) :=
  match seasons with
  | [] => None
  | (k', vs) :: seasons' =>
      if decide (k = k') then Some vs else dict_lookup seasons' k
  end.

(** [seasons[k].append(v)] for a key of the dict. *)
Fixpoint dict_append (seasons : seasons_dict) (k : value) (v : SearchRecord)
    : seasons_dict :=
  match seasons with
  | [] => []
  | (k', vs) :: seasons' =>
      if decide (k = k') then (k', vs ++ [v]) :: seasons'
      else (k', vs) :: dict_append seasons' k v
  end.

(** The body of the loop of lines 212-215. *)
Definition add_to_season (seasons : seasons_dict) (video_info : SearchRecord)
    : outcome seasons_dict :=
  k ← subscript video_info "season";
  let seasons :=
    if dict_lookup seasons k is None
    then seasons ++ [(k, [])] else seasons in
  Ret (dict_append seasons k video_info).

Fixpoint group_by_season_from (seasons : seasons_dict)
    (results : list SearchRecord) : outcome seasons_dict :=
  match results with
  | [] => Ret seasons
  | video_info :: results' =>
      seasons ← add_to_season seasons video_info;
      group_by_season_from seasons results'
  end.

(** Lines 211-215. *)
Definition group_by_season (results : list SearchRecord)
    : outcome seasons_dict :=
  group_by_season_from [] results.

Definition season_prompt : string :=
  "Select the season number to download. Leave empty or 'y' to download all: ".

(** One round of the loop of lines 225-241. *)
Definition select_season_round (seasons : seasons_dict)
    : io (option (list SearchRecord)) :=
  choice <- input season_prompt ;;
  if negb (truthy (VStr choice)) || String.eqb (Py.lower choice) "y" then
    print "Downloading all seasons." ;;
    io_ret (Some (concat (seasons.*2)))
  else
    try_except_ValueError
      (n <- lift (int_value (VStr choice)) ;;
       if (1 <=? n) && (n <=? len seasons) then
         i <- lift (int_value (VStr choice)) ;;
         selected_season <-
           lift (index (sorted Z.leb (fun s => valueOrElse s 0) (seasons.*1))
                   (i - 1)) ;;
         episodes <-
           lift (match dict_lookup seasons selected_season with
                 | Some vs => Ret vs
                 | None => Raise (KeyError (format_value selected_season))
                 end) ;;
         print (nl +:+ "Selected Season " +:+ format_value selected_season
                +:+ " with " +:+ Py.str (len episodes) +:+ " episodes."
                +:+ nl) ;;
         io_ret (Some episodes)
       else
         print ("Invalid selection: " +:+ choice
                +:+ ". Please select a valid season number.") ;;
         exit 1)
      (print "Please enter a valid number." ;;
       exit 1).

(** [select_season], lines 203-241. *)
Definition select_season (results : list SearchRecord)
    : io (list SearchRecord) :=
  results <- lift (determine_season_and_episode results) ;;
  results <- lift (sort_seasons_by_season_and_episode results) ;;
  seasons <- lift (group_by_season results) ;;
  if len seasons =? 0 then
    print "No seasons found." ;;
    io_ret []
  else
    print "Available seasons:" ;;
    for_each (enumerate seasons 1)
      (fun '(idx, (season, episodes)) =>
         print (Py.str idx +:+ ": Season " +:+ format_value season +:+ " ("
                +:+ Py.str (len episodes) +:+ " episodes)")) ;;
    while_true_reading (select_season_round seasons).

(** [S[0-9]+\/E[0-9]+] of lines 250 and 286: on code points below 256 it
    matches where [S(\d+)\/E(\d+)] does. *)
Definition has_episode_marker (video_info : SearchRecord) : outcome bool :=
  t ← title_of video_info;
  Ret (bool_decide (is_Some (Re.search Re.match_season_episode t))).

(** The body of the loop of lines 249-253. *)
Definition update_video_type_of (video_info : SearchRecord)
    : outcome SearchRecord :=
  b ← has_episode_marker video_info;
  Ret (<["video-type" :=
          VStr (if b : bool then VIDEO_TYPE_EPISODE else VIDEO_TYPE_MOVIE)]>
        video_info).

(** [update_video_type], lines 244-254. *)
Definition update_video_type (results : list SearchRecord)
    : outcome (list SearchRecord) :=
  mapM update_video_type_of results.

(** [is_topic_is_series], lines 281-286. *)
Fixpoint is_topic_is_series (results : list SearchRecord) : outcome bool :=
  match results with
  | [] => Ret false
  | v :: results' =>
      b ← has_episode_marker v;
      if b : bool then Ret true else is_topic_is_series results'
  end.

(** [os.path.join(a, b)] on POSIX. *)
Definition os_path_join (a b : string) : string :=
  if String.prefix "/" b then b
  else if String.eqb a "" then b
  else if String.eqb (String.substring (String.length a - 1) 1 a) "/"
  then a +:+ b
  else a +:+ "/" +:+ b.

(** Line 264. *)
Definition episode_code (video_info : SearchRecord) : outcome string :=
  s ← subscript video_info "season";
  s ← int_value s;
  e ← subscript video_info "episode";
  e ← int_value e;
  Ret ("S" +:+ Py.format_02d s +:+ "E" +:+ Py.format_02d e).

(** Lines 262-265. *)
Definition filename_base (title : string) (video_info : SearchRecord)
    : outcome string :=
  video_type ← subscript video_info "video-type";
  if decide (video_type = VStr VIDEO_TYPE_EPISODE) then
    code ← episode_code video_info;
    Ret (title +:+ " " +:+ code)
  else Ret title.

(** Line 266. *)
Definition filename_video (title : string) (video_info : SearchRecord)
    (file_extension : string) : outcome string :=
  base ← filename_base title video_info;
  Ret (base +:+ file_extension).

(** The body of the loop of lines 260-278.  The two download routines are
    outside the pipeline: a call of one is recorded in the trace. *)
Definition download_one (n : Z) (download_folder title quality : string)
    (download_subtitles : bool) (i : Z) (video_info : SearchRecord)
    : io unit :=
  resolved <- get_video_url_by_quality video_info quality ;;
  let '(video_url, file_extension) := resolved in
  base <- lift (filename_base title video_info) ;;
  name <- lift (filename_video title video_info file_extension) ;;
  let filepath_video := os_path_join download_folder name in
  print ("[" +:+ Py.str i +:+ "/" +:+ Py.str n +:+ "] Downloading: " +:+ name
         +:+ " (quality: " +:+ quality +:+ ")") ;;
  emit (DownloadVideo video_url filepath_video name) ;;
  if download_subtitles then
    let '(subtitle_url, subtitle_extension) := get_subtitle_url video_info in
    if truthy subtitle_url then
      emit (DownloadSubtitle subtitle_url
              (os_path_join download_folder (base +:+ subtitle_extension)))
    else print ("No subtitle available for " +:+ name +:+ "." +:+ nl)
  else io_ret tt.

(** [download_all_videos], lines 257-278. *)
Definition download_all_videos (all_results : list SearchRecord)
    (download_folder title quality : string) (download_subtitles : bool)
    : io unit :=
  emit (MakeDirs download_folder) ;;
  for_each (enumerate all_results 1)
    (fun '(i, video_info) =>
       download_one (len all_results) download_folder title quality
         download_subtitles i video_info).

(** [search_and_download_all], lines 289-311. *)
Definition search_and_download_all (post : request -> response) (fuel : nat)
    (query download_folder quality : string)
    (download_subtitles use_title_field use_topic_field
       include_future_content : bool) : io unit :=
  all_results <-
    query_api post fuel query use_title_field use_topic_field
      include_future_content ;;
  match all_results with
  | [] => print "No results found for the given query." ;; exit 1
  | _ :: _ =>
      selected <- select_topic all_results ;;
      let '(filtered_results, topic) := selected in
      match filtered_results with
      | [] =>
          print ("No videos found for topic " +:+ format_value topic +:+ ".") ;;
          exit 1
      | _ :: _ =>
          series <- lift (is_topic_is_series filtered_results) ;;
          if series : bool then
            filtered_results <- lift (update_video_type filtered_results) ;;
            print "This is a series. Do you want to download a specific or all episodes?" ;;
            filtered_results <- select_season filtered_results ;;
            if 0 <? len filtered_results then
              download_all_videos filtered_results download_folder
                (format_value topic) quality download_subtitles
            else
              print "No seasons detected in the results." ;;
              exit 1
          else
            print "This is not a series. Downloading the single video..." ;;
            raise (NotImplementedError
                     "Single video download not implemented yet.")
      end
  end.

(** * Vocabulary of the properties *)

Definition empty_world : world := {| stdin := []; trace := [] |}.

(** The URL the resolver settles on for the field [k] of the tier asked. *)
Definition resolved_url (r : SearchRecord) (k : string) : value :=
  if truthy (get r k) then get r k
  else fallback r ["url_video_hd"; "url_video"; "url_video_low"] (get r k).

(** The first truthy URL in the order hd, medium, low; the value of the
    low field when there is none. *)
Definition first_available (r : SearchRecord) : value :=
  if truthy (get r "url_video_hd") then get r "url_video_hd"
  else if truthy (get r "url_video") then get r "url_video"
  else get r "url_video_low".

(** Sample records. *)
Definition only_low : SearchRecord :=
  {["url_video_low" := VStr "http://host/clip_low.mp4"]}.
Definition empty_low : SearchRecord := {["url_video_low" := VStr ""]}.

(** Two elements in the order of their keys. *)
Definition by_key {A K} (le : K -> K -> bool) (key : A -> K) (x y : A)
    : Prop :=
  le (key x) (key y) = true.

(** The strict order of [str]: lexicographic, by code point. *)
Definition str_lt (a b : string) : Prop := String.ltb a b = true.

(** The pair a record is sorted by: season and episode as integers, 0 for
    a value that is null or not a number. *)
Definition season_episode_of (x : SearchRecord) : Z * Z :=
  (valueOrElse (get x "season") 0, valueOrElse (get x "episode") 0).

(** Ascending order of the pairs (season, episode). *)
Definition season_episode_le (x y : SearchRecord) : Prop :=
  (season_episode_of x).1 < (season_episode_of y).1
  \/ ((season_episode_of x).1 = (season_episode_of y).1
      /\ (season_episode_of x).2 <= (season_episode_of y).2).

Definition with_season_episode (title : string) (season episode : value)
    : SearchRecord :=
  <["episode" := episode]> (<["season" := season]> {["title" := VStr title]}).

Definition unnumbered : SearchRecord := with_season_episode "Extra" VNone VNone.
Definition season_two : SearchRecord :=
  with_season_episode "S2/E1" (VStr "2") (VStr "1").
Definition season_one : SearchRecord :=
  with_season_episode "S1/E1" (VStr "1") (VStr "1").

(** A non-empty run of digits: what [\d+] matches. *)
Definition digits (s : string) : Prop :=
  s <> "" /\ Py.all_chars Py.is_digit s = true.

Definition starts_with (p : ascii -> bool) (s : string) : bool :=
  match s with
  | String c _ => p c
  | EmptyString => false
  end.

(** [t] holds, after [pre], a substring that [S(\d+)\/E(\d+)] matches with
    the groups [g1] and [g2]; [post] is what follows it. *)
Definition marker_at (t pre g1 g2 post : string) : Prop :=
  t = pre +:+ "S" +:+ g1 +:+ "/E" +:+ g2 +:+ post /\ digits g1 /\ digits g2.

Definition has_marker (t : string) : Prop :=
  exists pre g1 g2 post, marker_at t pre g1 g2 post.

(** The groups of the first match: it starts where no match starts earlier,
    and its second group takes all the digits there are. *)
Definition first_marker (t g1 g2 : string) : Prop :=
  exists pre post,
    marker_at t pre g1 g2 post
    /\ starts_with Py.is_digit post = false
    /\ forall pre' g1' g2' post',
         marker_at t pre' g1' g2' post' ->
         (String.length pre <= String.length pre')%nat.

(** What the extraction makes of a record [r]: the record [r'] differs from
    it in the season and the episode only; they are the groups of the first
    match in the title, or both null when the title has no match. *)
Definition season_episode_extracted (r r' : SearchRecord) : Prop :=
  exists t,
    title_of r = Ret t
    /\ (forall k, k <> "season" -> k <> "episode" -> r' !! k = r !! k)
    /\ (has_marker t ->
        exists g1 g2,
          first_marker t g1 g2
          /\ r' !! "season" = Some (VStr g1)
          /\ r' !! "episode" = Some (VStr g2))
    /\ (~ has_marker t ->
        r' !! "season" = Some VNone /\ r' !! "episode" = Some VNone)
    /\ (r' !! "season" = Some VNone <-> r' !! "episode" = Some VNone).

Definition pilot : SearchRecord := {["title" := VStr "Show S1/E03 - Pilot"]}.
Definition trailer : SearchRecord := {["title" := VStr "Show - Trailer"]}.

(** The number a run of digits denotes, continuing from [acc]. *)
Fixpoint decimal (acc : Z) (s : string) : Z :=
  match s with
  | EmptyString => acc
  | String c r => decimal (10 * acc + Py.digit_value c) r
  end.


(** A run of digits that is not too long for [int]. *)
Definition within_limit (s : string) : Prop :=
  Z.of_nat (String.length s) <= Py.int_max_str_digits.



(** The request for the page number [n] (from 0) of a query. *)
Definition page_request (query : string)
    (use_title_field use_topic_field include_future_content : bool)
    (n : nat) : request :=
  {| queries :=
       if use_title_field && use_topic_field
       then [{| fields := Some ["title"; "topic"]; query_text := query |}]
       else if use_title_field
       then [{| fields := Some ["title"]; query_text := query |}]
       else if use_topic_field
       then [{| fields := Some ["topic"]; query_text := query |}]
       else [{| fields := None; query_text := query |}];
     sortBy := "timestamp"; sortOrder := "desc";
     future := include_future_content;
     offset := 100 * Z.of_nat n; size := 100 |}.

(** The response of the index [post] to the request for the page [n]. *)
Definition page_of (post : request -> response) (query : string)
    (use_title_field use_topic_field include_future_content : bool)
    (n : nat) : response :=
  post (page_request query use_title_field use_topic_field
          include_future_content n).

(** A page the loop goes on after: success, and not empty. *)
Definition goes_on (p : response) : Prop :=
  status_code p = 200 /\ results p <> [].

(** What the loop prints when it stops at the page [p]. *)
Definition stop_report (p : response) : list event :=
  if status_code p =? 200 then []
  else [Print ("Error querying API: " +:+ Py.str (status_code p))].

(** A sample index: two pages of hits, then a failure. *)
Definition hit (title : string) : SearchRecord := {["title" := VStr title]}.
Definition failing_index (body : request) : response :=
  if offset body =? 0
  then {| status_code := 200; results := [hit "a"; hit "b"] |}
  else if offset body =? 100
  then {| status_code := 200; results := [hit "c"] |}
  else {| status_code := 503; results := [] |}.

(** A line the topic prompt does not accept: not a number, or a number out
    of range. *)
Definition rejected (topics : list string) (line : string) : Prop :=
  match Py.int line with
  | Some choice => ~ (1 <= choice <= len topics)
  | None => True
  end.

(** What the topic prompt answers to a line it does not accept. *)
Definition retry_report (line : string) : event :=
  match Py.int line with
  | Some _ => Print "Invalid selection. Try again."
  | None => Print "Please enter a valid number."
  end.

(** Lines 145-147. *)
Definition topic_listing (topics : list string) : list event :=
  Print "Multiple topics found:"
  :: ((fun '(idx, topic) => Print (Py.str idx +:+ ": " +:+ topic))
        <$> enumerate topics 1).

(** A prompt and its answer, for each line that is not accepted. *)
Definition retries (lines : list string) : list event :=
  lines ≫= (fun line => [Prompt topic_prompt; retry_report line]).

Definition with_topic (title topic : string) : SearchRecord :=
  <["topic" := VStr topic]> {["title" := VStr title]}.

(** The results of the specification's example: topics A, A and B. *)
Definition topics_a_a_b : list SearchRecord :=
  [with_topic "one" "A"; with_topic "two" "A"; with_topic "three" "B"].

(** One record of topic A and one record without topic. *)
Definition one_topic_and_none : list SearchRecord :=
  [with_topic "one" "A"; hit "two"].

(** An event that is a line printed, not a prompt. *)
Definition is_print (e : event) : Prop := exists text, e = Print text.

(** A non-empty run of letters and digits: what [[a-zA-Z0-9]+] matches. *)
Definition alnum_run (g : string) : Prop :=
  g <> "" /\ Py.all_chars Py.is_alnum g = true.

(** The text [u] ends with a dot and the run [g], up to a final newline. *)
Definition ends_with_extension (u g : string) : Prop :=
  exists pre tail,
    u = pre +:+ "." +:+ g +:+ tail /\ alnum_run g /\ Re.at_end tail = true.

(** What the classification makes of a record [r]: the record [r'] differs
    from it in the type only, which is "episode" when the title has a
    marker and "movie" when it has none. *)
Definition classified (r r' : SearchRecord) : Prop :=
  exists t,
    title_of r = Ret t
    /\ (forall k, k <> "video-type" -> r' !! k = r !! k)
    /\ (has_marker t -> r' !! "video-type" = Some (VStr VIDEO_TYPE_EPISODE))
    /\ (~ has_marker t -> r' !! "video-type" = Some (VStr VIDEO_TYPE_MOVIE)).


(** Sample records for the titles. *)
Definition null_title : SearchRecord := {["title" := VNone]}.
Definition no_title : SearchRecord := {["topic" := VStr "A"]}.

(** Lines 208-215: the records with season and episode, in order, grouped
    by season. *)
Definition ordered_results (results : list SearchRecord)
    : outcome (list SearchRecord) :=
  annotated ← determine_season_and_episode results;
  sort_seasons_by_season_and_episode annotated.

Definition seasons_of_results (results : list SearchRecord)
    : outcome seasons_dict :=
  ordered ← ordered_results results;
  group_by_season ordered.

(** Lines 221-223. *)
Definition season_listing (seasons : seasons_dict) : list event :=
  Print "Available seasons:"
  :: ((fun '(idx, (season, episodes)) =>
         Print (Py.str idx +:+ ": Season " +:+ format_value season +:+ " ("
                +:+ Py.str (len episodes) +:+ " episodes)"))
        <$> enumerate seasons 1).

(** The records of a season in a dict, none when the season is no key. *)
Definition group_of (seasons : seasons_dict) (k : value)
    : list SearchRecord :=
  default [] (dict_lookup seasons k).

(** The order of the season keys: as integers, 0 for null or no number. *)
Definition season_le (a b : value) : Prop :=
  valueOrElse a 0 <= valueOrElse b 0.

(** Sample results for the season prompt: two episodes of season 1 out of
    order, one of season 2 and an extra without marker. *)
Definition four_titles : list SearchRecord :=
  [hit "Show S2/E1"; hit "Show S1/E2"; hit "Bonus"; hit "Show S1/E1"].

(** The seasons of the four titles. *)
Definition four_seasons : seasons_dict :=
  [(VNone, [with_season_episode "Bonus" VNone VNone]);
   (VStr "1", [with_season_episode "Show S1/E1" (VStr "1") (VStr "1");
               with_season_episode "Show S1/E2" (VStr "1") (VStr "2")]);
   (VStr "2", [with_season_episode "Show S2/E1" (VStr "2") (VStr "1")])].

(** A sample index whose pages never end. *)
Definition endless_index (body : request) : response :=
  {| status_code := 200; results := [hit "again"] |}.





(** Sample indexes: one page with two episodes of one topic; one page with
    a film. *)
Definition episode_hit (title url : string) : SearchRecord :=
  <["url_video" := VStr url]> (with_topic title "MyShow").
Definition film_index (body : request) : response :=
  if offset body =? 0
  then {| status_code := 200;
          results := [episode_hit "MyShow - the film" "http://host/f.mp4"] |}
  else {| status_code := 200; results := [] |}.
Definition silent_index (body : request) : response :=
  {| status_code := 404; results := [] |}.

(** A title whose season has one digit more than [int] reads, and the
    record of it after the classification and the extraction. *)
Definition overlong_season : string := "1" +:+ Py.zeros 4300.
Definition overlong_title : string := "Show S" +:+ overlong_season +:+ "/E1".
Definition overlong_typed : SearchRecord :=
  <["video-type" := VStr VIDEO_TYPE_EPISODE]> (hit overlong_title).
Definition overlong_episode : SearchRecord :=
  <["episode" := VStr "1"]>
    (<["season" := VStr overlong_season]> overlong_typed).


(** * Properties *)

(** ** The builtins on examples *)

Example int_examples :
  Py.int "12" = Some 12 /\ Py.int " -7 " = Some (-7) /\ Py.int "1_0" = Some 10
  /\ Py.int "03" = Some 3 /\ Py.int "+4" = Some 4
  /\ Py.int "1__0" = None /\ Py.int "_1" = None /\ Py.int "1_" = None
  /\ Py.int "+ 1" = None /\ Py.int "" = None /\ Py.int " " = None
  /\ Py.int "abc" = None /\ Py.int "1.0" = None /\ Py.int "0x1" = None
  /\ Py.int "1 2" = None.
Proof. repeat split; reflexivity. Qed.

Example int_limit_examples :
  Py.int (Py.zeros 4299 +:+ "2") = Some 2
  /\ Py.int (Py.zeros 4300 +:+ "2") = None
  /\ Py.int (" +" +:+ Py.zeros 4200 +:+ "1_0 ") = Some 10
  /\ Py.int ("9" +:+ Py.zeros 4300) = None
  /\ Py.int ("-" +:+ Py.zeros 4300) = Some 0
  /\ Py.int ("-" +:+ Py.zeros 4301) = None.
Proof. repeat split; vm_compute; reflexivity. Qed.


Lemma int_too_long s :
  Py.int_max_str_digits < Py.count_digits s -> Py.int s = None.
Proof.
  intros Hlong. unfold Py.int.
  by destruct (Z.ltb_spec Py.int_max_str_digits (Py.count_digits s)); [| lia].
Qed.

Example str_examples :
  Py.str 0 = "0" /\ Py.str 7 = "7" /\ Py.str 10 = "10" /\ Py.str 1234 = "1234"
  /\ Py.str (-45) = "-45" /\ Py.format_02d 5 = "05"
  /\ Py.format_02d 123 = "123" /\ Py.format_02d (-1) = "-1"
  /\ Py.format_02d 0 = "00" /\ Py.format_02d 99 = "99".
Proof. repeat split; reflexivity. Qed.

Example search_examples :
  Re.search Re.match_season_episode "Show S1/E03 - Pilot" = Some ("1", "03")
  /\ Re.search Re.match_season_episode "SS12/E S1/E03x S3/E4"
     = Some ("1", "03")
  /\ Re.search Re.match_season_episode "S1E03" = None
  /\ Re.search Re.match_extension "http://host/a.b/clip.webm" = Some "webm"
  /\ Re.search Re.match_extension ("clip.mp4" +:+ nl) = Some "mp4"
  /\ Re.search Re.match_extension "clip.mp4?x=1" = None
  /\ Re.search Re.match_extension "clip" = None.
Proof. repeat split; reflexivity. Qed.

(** ** Effects: how a sequence of two computations ends *)

Lemma io_bind_inv {A B} (m : io A) (k : A -> io B) w b w' :
  io_bind m k w = (Ret b, w') ->
  exists a w1, m w = (Ret a, w1) /\ k a w1 = (Ret b, w').
Proof.
  unfold io_bind. destruct (m w) as [[a | e |] w1]; intros H; try done.
  by exists a, w1.
Qed.

Lemma world_eta w : {| stdin := stdin w; trace := trace w |} = w.
Proof. by destruct w. Qed.

(** ** The quality resolver *)

Lemma get_video_url_by_quality_known r q k w :
  quality_map q = Some k ->
  get_video_url_by_quality r q w
  = (Ret (resolved_url r k, video_file_extension (resolved_url r k)), w).
Proof.
  intros Hq. unfold get_video_url_by_quality, io_bind, io_ret, resolved_url.
  rewrite Hq. cbn. rewrite Hq. by destruct (truthy (get r k)).
Qed.

Lemma quality_map_unknown q :
  q <> "low" -> q <> "medium" -> q <> "hd" -> quality_map q = None.
Proof.
  intros H1 H2 H3. unfold quality_map.
  destruct (String.eqb_spec q "low"); [done |].
  destruct (String.eqb_spec q "medium"); [done |].
  by destruct (String.eqb_spec q "hd").
Qed.

Lemma quality_map_keys q k :
  quality_map q = Some k ->
  k = "url_video_low" \/ k = "url_video" \/ k = "url_video_hd".
Proof.
  unfold quality_map. repeat case_match; intros [= <-]; auto.
Qed.

(** C8: a tier that is none of low, medium and hd resolves to the same URL
    and file extension as the tier medium does; the run differs by the
    warning only. *)
Theorem unrecognized_tier_is_medium r q w :
  q <> "low" -> q <> "medium" -> q <> "hd" ->
  exists p,
    get_video_url_by_quality r "medium" w = (Ret p, w)
    /\ get_video_url_by_quality r q w
       = (Ret p,
          {| stdin := stdin w;
             trace := trace w ++
               [Print ("Warning: Quality '" +:+ q
                       +:+ "' not recognized. Defaulting to 'medium'.")] |}).
Proof.
  intros H1 H2 H3.
  exists (resolved_url r "url_video",
          video_file_extension (resolved_url r "url_video")).
  split; [by apply get_video_url_by_quality_known |].
  unfold get_video_url_by_quality.
  rewrite (quality_map_unknown q) by done.
  unfold io_bind, io_ret, print, emit, resolved_url. cbn.
  destruct (truthy (get r "url_video")); reflexivity.
Qed.

(** The tier "ultra" on a record with a medium URL. *)
Lemma unrecognized_tier_is_medium_witness :
  exists p,
    get_video_url_by_quality
      {["url_video" := VStr "http://host/clip.webm"]} "medium"
      {| stdin := []; trace := [] |}
    = (Ret p, {| stdin := []; trace := [] |})
    /\ get_video_url_by_quality
         {["url_video" := VStr "http://host/clip.webm"]} "ultra"
         {| stdin := []; trace := [] |}
       = (Ret p,
          {| stdin := [];
             trace :=
               [Print "Warning: Quality 'ultra' not recognized. Defaulting to 'medium'."] |}).
Proof.
  apply (unrecognized_tier_is_medium
           {["url_video" := VStr "http://host/clip.webm"]} "ultra"
           {| stdin := []; trace := [] |}); done.
Defined.

Lemma fallback_first_available r u0 :
  fallback r ["url_video_hd"; "url_video"; "url_video_low"] u0
  = first_available r.
Proof. unfold first_available. cbn. by repeat case_match. Qed.

Lemma truthy_not_none u : truthy u = true -> u <> VNone.
Proof. by destruct u. Qed.

Lemma get_absent (r : SearchRecord) k : r !! k = None -> get r k = VNone.
Proof. intros H. unfold get. by rewrite H. Qed.

(** C5: for a recognized tier, the URL of the requested tier is returned
    when it is there; when it is absent (the resolver's own test: missing,
    [None] or empty) the first URL that is there in the order hd, medium, low
    is returned.  So a record with some tier URL resolves to a URL that is
    not null, a null result means that no tier has a URL, and a record
    without tier fields resolves to null. *)
Theorem quality_fallback_order r q k w :
  quality_map q = Some k ->
  exists u,
    get_video_url_by_quality r q w = (Ret (u, video_file_extension u), w)
    /\ (truthy (get r k) = true -> u = get r k)
    /\ (truthy (get r k) = false ->
        u = if truthy (get r "url_video_hd") then get r "url_video_hd"
            else if truthy (get r "url_video") then get r "url_video"
            else get r "url_video_low")
    /\ (truthy (get r "url_video_hd") = true
        \/ truthy (get r "url_video") = true
        \/ truthy (get r "url_video_low") = true ->
        truthy u = true /\ u <> VNone)
    /\ (u = VNone ->
        truthy (get r "url_video_hd") = false
        /\ truthy (get r "url_video") = false
        /\ truthy (get r "url_video_low") = false)
    /\ (r !! "url_video_hd" = None -> r !! "url_video" = None ->
        r !! "url_video_low" = None -> u = VNone).
Proof.
  intros Hq. exists (resolved_url r k).
  split; [by apply get_video_url_by_quality_known |].
  unfold resolved_url. rewrite fallback_first_available.
  unfold first_available.
  pose proof (quality_map_keys q k Hq) as Hk.
  destruct Hk as [-> | [-> | ->]];
    destruct (truthy (get r "url_video_hd")) eqn:Hhd,
             (truthy (get r "url_video")) eqn:Hmed,
             (truthy (get r "url_video_low")) eqn:Hlow;
    repeat split; intros;
    repeat match goal with
      | H : _ \/ _ |- _ => destruct H
      | H : ?v = VNone, T : truthy ?v = true |- _ =>
          rewrite H in T; discriminate
      end;
    try congruence;
    try (apply truthy_not_none; congruence);
    try (by apply get_absent).
Qed.

(** The example of C5: the tier hd asked of a record that has the low URL
    only gives the low URL. *)
Lemma quality_fallback_order_witness :
  get_video_url_by_quality only_low "hd" empty_world
  = (Ret (VStr "http://host/clip_low.mp4", ".mp4"), empty_world).
Proof.
  destruct (quality_fallback_order only_low "hd" "url_video_hd" empty_world
              eq_refl) as (u & Hrun & _ & Hfall & _).
  rewrite Hrun, (Hfall eq_refl). reflexivity.
Defined.

Lemma get_delete_ne (r : SearchRecord) k k' :
  k <> k' -> get (delete k r) k' = get r k'.
Proof. intros H. unfold get. by rewrite lookup_delete_ne. Qed.

Lemma get_delete_eq (r : SearchRecord) k : get (delete k r) k = VNone.
Proof. unfold get. by rewrite lookup_delete_eq. Qed.

(** C10, as stated, fails: the tier low asked of a record whose low URL is
    present and empty resolves to that empty string, where the same record
    without the field resolves to null. *)
Lemma empty_low_url_is_returned :
  empty_low !! "url_video_low" = Some (VStr "")
  /\ get_video_url_by_quality empty_low "low" empty_world
     = (Ret (VStr "", ".mp4"), empty_world)
  /\ get_video_url_by_quality (delete "url_video_low" empty_low) "low"
       empty_world
     = (Ret (VNone, ".mp4"), empty_world).
Proof. repeat split; vm_compute; reflexivity. Qed.

(** C10, amended: a requested-tier URL that is present but empty (or falsy
    otherwise) sends the resolver down the chain hd, medium, low, and the
    first URL that is not empty is returned.  For the tiers hd and medium
    the result is the one of the same record without the field.  When no
    tier has a URL that is not empty, the result is the value of the low
    field as it stands: null when it is missing, the empty string when it is
    present and empty. *)
Theorem empty_requested_url_falls_back r q k w :
  quality_map q = Some k ->
  truthy (get r k) = false ->
  exists u,
    get_video_url_by_quality r q w = (Ret (u, video_file_extension u), w)
    /\ u = first_available r
    /\ (k <> "url_video_low" ->
        get_video_url_by_quality (delete k r) q w
        = (Ret (u, video_file_extension u), w))
    /\ (truthy u = true \/ u = get r "url_video_low")
    /\ (truthy (get r "url_video_hd") = false ->
        truthy (get r "url_video") = false ->
        r !! "url_video_low" = Some (VStr "") -> u = VStr "")
    /\ (truthy (get r "url_video_hd") = false ->
        truthy (get r "url_video") = false ->
        r !! "url_video_low" = None -> u = VNone).
Proof.
  intros Hq Hfalsy. exists (first_available r).
  assert (Hres : forall r', truthy (get r' k) = false ->
            resolved_url r' k = first_available r').
  { intros r' H. unfold resolved_url.
    by rewrite H, fallback_first_available. }
  split.
  { rewrite (get_video_url_by_quality_known r q k w Hq).
    by rewrite (Hres r Hfalsy). }
  split; [done |].
  split.
  { intros Hk.
    rewrite (get_video_url_by_quality_known _ q k w Hq).
    rewrite Hres by by rewrite get_delete_eq.
    assert (first_available (delete k r) = first_available r) as ->; [| done].
    unfold first_available.
    destruct (quality_map_keys q k Hq) as [-> | [-> | ->]]; [done | |].
    - rewrite get_delete_eq, Hfalsy.
      by rewrite !get_delete_ne by done.
    - rewrite get_delete_eq, Hfalsy.
      by rewrite !get_delete_ne by done. }
  unfold first_available.
  destruct (truthy (get r "url_video_hd")) eqn:Hhd,
           (truthy (get r "url_video")) eqn:Hmed;
    repeat split; intros; try done; auto.
  - unfold get. by rewrite H1.
  - by apply get_absent.
Qed.

(** The tier low on a record whose low URL is empty and which has no
    other URL: the empty string is the result. *)
Lemma empty_requested_url_falls_back_witness :
  exists u,
    get_video_url_by_quality empty_low "low" empty_world
    = (Ret (u, video_file_extension u), empty_world)
    /\ u = VStr "".
Proof.
  destruct (empty_requested_url_falls_back empty_low "low" "url_video_low"
              empty_world eq_refl eq_refl)
    as (u & Hrun & _ & _ & _ & Hempty & _).
  exists u. split; [exact Hrun |].
  apply Hempty; reflexivity.
Defined.

(** ** [sorted]: a permutation, in order, stable, and the only such list *)

Section SortedFacts.
Context {A K : Type} (le : K -> K -> bool) (key : A -> K).
Implicit Types (x y : A) (l : list A).

Lemma insert_by_key_perm x l : insert_by_key le key x l ≡ₚ x :: l.
Proof.
  induction l as [| y l IH]; cbn; [done |].
  destruct (le (key x) (key y)); [done |].
  rewrite IH. apply perm_swap.
Qed.

Lemma sorted_perm l : sorted le key l ≡ₚ l.
Proof.
  induction l as [| x l IH]; cbn; [done |].
  fold (sorted le key l). by rewrite insert_by_key_perm, IH.
Qed.

Lemma sorted_length l : length (sorted le key l) = length l.
Proof. by rewrite sorted_perm. Qed.

Lemma elem_of_sorted x l : x ∈ sorted le key l <-> x ∈ l.
Proof. by rewrite sorted_perm. Qed.

Section Order.
Hypothesis le_total : forall a b, le a b = true \/ le b a = true.
Hypothesis le_trans :
  forall a b c, le a b = true -> le b c = true -> le a c = true.

Lemma insert_by_key_sorted x l :
  StronglySorted (by_key le key) l ->
  StronglySorted (by_key le key) (insert_by_key le key x l).
Proof.
  induction 1 as [| y l Hl IH Hy]; cbn.
  { repeat constructor. }
  destruct (le (key x) (key y)) eqn:Hxy.
  - constructor; [by constructor |].
    constructor; [done |].
    eapply Forall_impl; [exact Hy |].
    intros z Hz. unfold by_key in *. eauto.
  - constructor; [done |].
    apply Forall_forall. intros z Hz.
    rewrite insert_by_key_perm in Hz.
    apply elem_of_cons in Hz as [-> | Hz].
    + destruct (le_total (key x) (key y)); [congruence | done].
    + rewrite Forall_forall in Hy. by apply Hy.
Qed.

Lemma sorted_in_order l : StronglySorted (by_key le key) (sorted le key l).
Proof.
  induction l as [| x l IH]; cbn; [constructor |].
  by apply insert_by_key_sorted.
Qed.
End Order.

Section Stable.
Context `{EqDecision K}.
Hypothesis le_refl : forall a, le a a = true.

Lemma insert_by_key_filter k x l :
  filter (fun y => key y = k) (insert_by_key le key x l)
  = filter (fun y => key y = k) (x :: l).
Proof.
  induction l as [| y l IH]; cbn [insert_by_key]; [done |].
  destruct (le (key x) (key y)) eqn:Hxy; [done |].
  rewrite (filter_cons _ y), IH, !filter_cons.
  destruct (decide (key y = k)) as [Hy | Hy],
           (decide (key x = k)) as [Hx | Hx]; try done.
  rewrite Hx, <- Hy, le_refl in Hxy. done.
Qed.

Lemma sorted_stable k l :
  filter (fun y => key y = k) (sorted le key l)
  = filter (fun y => key y = k) l.
Proof.
  induction l as [| x l IH]; cbn; [done |].
  fold (sorted le key l).
  by rewrite insert_by_key_filter, !filter_cons, IH.
Qed.

Hypothesis le_antisym :
  forall a b, le a b = true -> le b a = true -> a = b.

(** Two lists in order that keep, for every key, the same elements in
    the same order, are equal. *)
Lemma stable_in_order_unique l1 l2 :
  StronglySorted (by_key le key) l1 ->
  StronglySorted (by_key le key) l2 ->
  (forall k, filter (fun y => key y = k) l1
             = filter (fun y => key y = k) l2) ->
  l1 = l2.
Proof.
  intros H1. revert l2.
  induction H1 as [| a l1 Hl1 IH Ha]; intros l2 H2 Hf.
  { destruct l2 as [| b l2]; [done |].
    specialize (Hf (key b)). by rewrite filter_cons_True in Hf. }
  destruct H2 as [| b l2 Hl2 Hb].
  { specialize (Hf (key a)). by rewrite filter_cons_True in Hf. }
  assert (Hkey : key a = key b).
  { destruct (decide (key a = key b)) as [| Hne]; [done |].
    apply le_antisym.
    - pose proof (Hf (key b)) as Hfb.
      rewrite filter_cons_False, (filter_cons_True _ b) in Hfb by done.
      assert (b ∈ filter (fun y => key y = key b) l1) as Hin
        by (rewrite Hfb; left).
      apply list_elem_of_filter in Hin as [_ Hin].
      rewrite Forall_forall in Ha. by apply Ha.
    - pose proof (Hf (key a)) as Hfa.
      rewrite filter_cons_True, (filter_cons_False _ b) in Hfa
        by (done || congruence).
      assert (a ∈ filter (fun y => key y = key a) l2) as Hin
        by (rewrite <- Hfa; left).
      apply list_elem_of_filter in Hin as [_ Hin].
      rewrite Forall_forall in Hb. by apply Hb. }
  assert (a = b) as <-.
  { pose proof (Hf (key a)) as Hfa.
    rewrite !filter_cons_True in Hfa by done. congruence. }
  f_equal. apply IH; [done |].
  intros k. specialize (Hf k). rewrite !filter_cons in Hf.
  destruct (decide (key a = k)); congruence.
Qed.
End Stable.

(** Sorting the records paired with their keys, as [sorted] does, is
    sorting the records by their keys. *)
Lemma insert_by_key_decorated x l :
  insert_by_key le fst (key x, x) ((fun y => (key y, y)) <$> l)
  = (fun y => (key y, y)) <$> insert_by_key le key x l.
Proof.
  induction l as [| y l IH]; cbn; [done |].
  destruct (le (key x) (key y)); [done |].
  cbn. by rewrite <- IH.
Qed.

Lemma sorted_decorated l :
  (sorted le fst (zip (key <$> l) l)).*2 = sorted le key l.
Proof.
  assert (Hzip : zip (key <$> l) l = (fun y => (key y, y)) <$> l).
  { induction l as [| x l IH]; cbn; [done |]. by rewrite <- IH. }
  rewrite Hzip. clear Hzip.
  assert (Hs : sorted le fst ((fun y => (key y, y)) <$> l)
               = (fun y => (key y, y)) <$> sorted le key l).
  { induction l as [| x l IH]; cbn; [done |].
    fold (sorted le key l).
    fold (sorted le fst ((fun y => (key y, y)) <$> l)).
    by rewrite IH, insert_by_key_decorated. }
  rewrite Hs, <- list_fmap_compose.
  apply list_fmap_id.
Qed.
End SortedFacts.

(** ** Sorting by season and episode *)

Lemma pair_le_spec a b :
  pair_le a b = true <-> a.1 < b.1 \/ (a.1 = b.1 /\ a.2 <= b.2).
Proof.
  unfold pair_le.
  rewrite orb_true_iff, andb_true_iff, Z.ltb_lt, Z.eqb_eq, Z.leb_le. done.
Qed.

Lemma pair_le_total a b : pair_le a b = true \/ pair_le b a = true.
Proof. rewrite !pair_le_spec. lia. Qed.

Lemma pair_le_trans a b c :
  pair_le a b = true -> pair_le b c = true -> pair_le a c = true.
Proof. rewrite !pair_le_spec. lia. Qed.

Lemma pair_le_refl a : pair_le a a = true.
Proof. rewrite pair_le_spec. lia. Qed.

Lemma pair_le_antisym a b :
  pair_le a b = true -> pair_le b a = true -> a = b.
Proof.
  rewrite !pair_le_spec. destruct a, b; cbn. intros. f_equal; lia.
Qed.

Lemma StronglySorted_impl {A} (R R' : A -> A -> Prop) l :
  (forall x y, R x y -> R' x y) -> StronglySorted R l -> StronglySorted R' l.
Proof.
  intros HR. induction 1 as [| x l Hl IH Hx]; constructor; [done |].
  eapply Forall_impl; [exact Hx | auto].
Qed.

Lemma subscript_present (x : SearchRecord) k :
  is_Some (x !! k) -> subscript x k = Ret (get x k).
Proof. intros [v Hv]. unfold subscript, get. by rewrite Hv. Qed.

Lemma season_episode_keys seasons :
  (forall x, x ∈ seasons ->
     is_Some (x !! "season") /\ is_Some (x !! "episode")) ->
  mapM season_episode_key seasons = Ret (season_episode_of <$> seasons).
Proof.
  induction seasons as [| x l IH]; intros Hl; [done |].
  destruct (Hl x) as [Hs He]; [left |].
  assert (Hx : season_episode_key x = Ret (season_episode_of x)).
  { unfold season_episode_key.
    rewrite (subscript_present x "season" Hs).
    rewrite (subscript_present x "episode" He). done. }
  change (mapM season_episode_key (x :: l))
    with (y ← season_episode_key x; k ← mapM season_episode_key l;
          mret (y :: k)).
  rewrite Hx, IH; [done |]. intros y Hy. apply Hl. by right.
Qed.

Lemma sort_seasons_run seasons :
  (forall x, x ∈ seasons ->
     is_Some (x !! "season") /\ is_Some (x !! "episode")) ->
  sort_seasons_by_season_and_episode seasons
  = Ret (sorted pair_le season_episode_of seasons).
Proof.
  intros Hl. unfold sort_seasons_by_season_and_episode.
  rewrite season_episode_keys by done. cbn.
  by rewrite sorted_decorated.
Qed.

(** C7: on records that carry the season and episode fields the sort
    returns a list, which holds the same records (so their season and
    episode strings are as they were), is in ascending order of the pair
    (season, episode) taken as integers with 0 for a null or non-numeric
    value, and keeps records of equal pairs in their original order.  A
    value is non-numeric when [int] refuses it, as it does a numeral of
    more digits than its limit. *)
Theorem sort_is_total_and_stable seasons :
  (forall x, x ∈ seasons ->
     is_Some (x !! "season") /\ is_Some (x !! "episode")) ->
  exists sorted_seasons,
    sort_seasons_by_season_and_episode seasons = Ret sorted_seasons
    /\ sorted_seasons ≡ₚ seasons
    /\ StronglySorted season_episode_le sorted_seasons
    /\ (forall k,
          filter (fun x => season_episode_of x = k) sorted_seasons
          = filter (fun x => season_episode_of x = k) seasons)
    /\ valueOrElse VNone 0 = 0
    /\ (forall s, Py.int s = None -> valueOrElse (VStr s) 0 = 0)
    /\ (forall s n, Py.int s = Some n -> valueOrElse (VStr s) 0 = n)
    /\ (forall s, Py.int_max_str_digits < Py.count_digits s ->
          valueOrElse (VStr s) 0 = 0).
Proof.
  intros Hl. exists (sorted pair_le season_episode_of seasons).
  split; [by apply sort_seasons_run |].
  split; [apply sorted_perm |].
  split.
  { eapply StronglySorted_impl;
      [| apply sorted_in_order; [apply pair_le_total | apply pair_le_trans]].
    intros x y Hxy. by apply pair_le_spec. }
  split; [intros k; apply sorted_stable, pair_le_refl |].
  split; [done |].
  split; [| split]; intros s; cbn; [by intros -> | by intros n -> |].
  intros Hlong. by rewrite (int_too_long s Hlong).
Qed.

(** The example of C7: seasons null, "2", "1" come out as null, 1, 2. *)
Lemma sort_is_total_and_stable_witness :
  sort_seasons_by_season_and_episode [unnumbered; season_two; season_one]
  = Ret [unnumbered; season_one; season_two].
Proof.
  destruct (sort_is_total_and_stable [unnumbered; season_two; season_one])
    as (l & Hrun & _).
  - intros x Hx. rewrite !elem_of_cons in Hx.
    destruct Hx as [-> | [-> | [-> | Hx]]];
      [| | | by apply elem_of_nil in Hx];
      split; vm_compute; eauto.
  - vm_compute. reflexivity.
Defined.

(** The result of the sort does not depend on how a stable sort goes about
    it: a list in order that keeps the records of every pair in their
    original order is the list [sorted] returns. *)
Lemma sorted_unique seasons l :
  StronglySorted season_episode_le l ->
  (forall k, filter (fun x => season_episode_of x = k) l
             = filter (fun x => season_episode_of x = k) seasons) ->
  l = sorted pair_le season_episode_of seasons.
Proof.
  intros Hl Hf.
  apply (stable_in_order_unique pair_le season_episode_of
           pair_le_antisym).
  - eapply StronglySorted_impl; [| exact Hl].
    intros x y Hxy. by apply pair_le_spec.
  - apply sorted_in_order; [apply pair_le_total | apply pair_le_trans].
  - intros k. rewrite Hf. symmetry. apply sorted_stable, pair_le_refl.
Qed.

(** ** Strings *)

Lemma app_cons c a b : String c a +:+ b = String c (a +:+ b).
Proof. reflexivity. Qed.

Lemma app_assoc_str a b c : (a +:+ b) +:+ c = a +:+ (b +:+ c).
Proof. induction a as [| x a IH]; [done |]. by rewrite !app_cons, IH. Qed.

Lemma app_empty_r a : a +:+ "" = a.
Proof. induction a as [| x a IH]; [done |]. by rewrite app_cons, IH. Qed.


Lemma app_inv_length a b a' b' :
  a +:+ b = a' +:+ b' -> String.length a = String.length a' ->
  a = a' /\ b = b'.
Proof.
  revert a'. induction a as [| x a IH]; intros [| x' a'] H Hlen;
    try done.
  rewrite !app_cons in H. injection H as -> H. cbn in Hlen.
  destruct (IH a' H) as [-> ->]; [lia | done].
Qed.

(** ** The regular expressions *)

Lemma span_app p s a b :
  Re.span p s = (a, b) ->
  s = a +:+ b /\ Py.all_chars p a = true /\ starts_with p b = false.
Proof.
  revert a b. induction s as [| c s IH]; intros a b; cbn.
  { by intros [= <- <-]. }
  destruct (p c) eqn:Hc.
  - destruct (Re.span p s) as [a' b'] eqn:Hs. intros [= <- <-].
    destruct (IH a' b' eq_refl) as (-> & Ha & Hb).
    cbn. by rewrite Hc, Ha.
  - intros [= <- <-]. cbn. by rewrite Hc.
Qed.

Lemma span_all p a b :
  Py.all_chars p a = true ->
  Re.span p (a +:+ b) = (a +:+ (Re.span p b).1, (Re.span p b).2).
Proof.
  induction a as [| c a IH].
  { intros _. change ("" +:+ b) with b.
    destruct (Re.span p b) as [x y]. reflexivity. }
  cbn [Py.all_chars]. intros [Hc Ha]%andb_true_iff.
  rewrite !app_cons. cbn [Re.span]. rewrite Hc, (IH Ha).
  reflexivity.
Qed.

Lemma span_stop p b : starts_with p b = false -> Re.span p b = ("", b).
Proof. destruct b as [| c b]; cbn; [done |]. by intros ->. Qed.

Lemma span_exact p a b :
  Py.all_chars p a = true -> starts_with p b = false ->
  Re.span p (a +:+ b) = (a, b).
Proof.
  intros Ha Hb. by rewrite span_all, span_stop, app_empty_r.
Qed.

Lemma all_chars_app p a b :
  Py.all_chars p (a +:+ b) = Py.all_chars p a && Py.all_chars p b.
Proof.
  induction a as [| c a IH]; [done |].
  rewrite app_cons. cbn. by rewrite IH, andb_assoc.
Qed.

Lemma literal_spec p s r : Re.literal p s = Some r <-> s = p +:+ r.
Proof.
  revert s. induction p as [| c p IH]; intros s; cbn.
  { split; [by intros [= ->] | by intros ->]. }
  destruct s as [| d s]; [done |].
  rewrite app_cons.
  destruct (Ascii.eqb_spec c d) as [-> | Hne].
  - rewrite IH. split; [by intros -> | by intros [= ->]].
  - split; [done | by intros [= -> _]].
Qed.

Lemma some_of_spec p s g r :
  Re.some_of p s = Some (g, r) <->
  s = g +:+ r /\ g <> "" /\ Py.all_chars p g = true
  /\ starts_with p r = false.
Proof.
  unfold Re.some_of. split.
  - destruct (Re.span p s) as [a b] eqn:Hs.
    destruct (span_app _ _ _ _ Hs) as (-> & Ha & Hb).
    destruct a; [done |]. by intros [= <- <-].
  - intros (-> & Hne & Hg & Hr). rewrite span_exact by done.
    by destruct g.
Qed.

Lemma some_of_more p g post :
  g <> "" -> Py.all_chars p g = true ->
  Re.some_of p (g +:+ post)
  = Some (g +:+ (Re.span p post).1, (Re.span p post).2).
Proof.
  intros Hne Hg. unfold Re.some_of. rewrite span_all by done.
  by destruct g.
Qed.

(** What a match at the start of [s] is. *)
Lemma match_season_episode_sound s g1 g2 :
  Re.match_season_episode s = Some (g1, g2) ->
  exists post,
    s = "S" +:+ g1 +:+ "/E" +:+ g2 +:+ post
    /\ digits g1 /\ digits g2 /\ starts_with Py.is_digit post = false.
Proof.
  unfold Re.match_season_episode. intros H.
  apply bind_Some in H as (r & Hr & H).
  apply bind_Some in H as ([a r1] & Ha & H).
  apply bind_Some in H as (r2 & Hr2 & H).
  apply bind_Some in H as ([b post] & Hb & H).
  injection H as <- <-.
  apply literal_spec in Hr as ->.
  apply some_of_spec in Ha as (-> & Hne1 & Hd1 & _).
  apply literal_spec in Hr2 as ->.
  apply some_of_spec in Hb as (-> & Hne2 & Hd2 & Hpost).
  exists post. by repeat split.
Qed.

Lemma match_season_episode_complete g1 g2 post :
  digits g1 -> digits g2 ->
  Re.match_season_episode ("S" +:+ g1 +:+ "/E" +:+ g2 +:+ post)
  = Some (g1, g2 +:+ (Re.span Py.is_digit post).1).
Proof.
  intros [Hne1 Hd1] [Hne2 Hd2].
  unfold Re.match_season_episode.
  apply bind_Some. exists (g1 +:+ "/E" +:+ g2 +:+ post).
  split; [by apply literal_spec |].
  apply bind_Some. exists (g1, "/E" +:+ g2 +:+ post).
  split; [by apply some_of_spec |].
  apply bind_Some. exists (g2 +:+ post).
  split; [by apply literal_spec |].
  apply bind_Some.
  exists (g2 +:+ (Re.span Py.is_digit post).1, (Re.span Py.is_digit post).2).
  split; [by apply some_of_more | done].
Qed.

(** [re.search] finds a match where one starts and none starts earlier. *)
Lemma search_found {A} (m : string -> option A) s x :
  Re.search m s = Some x ->
  exists pre rest,
    s = pre +:+ rest /\ m rest = Some x
    /\ forall pre' rest',
         s = pre' +:+ rest' ->
         (String.length pre' < String.length pre)%nat -> m rest' = None.
Proof.
  induction s as [| c s IH]; cbn.
  - destruct (m "") eqn:Hm; [| done]. intros [= ->].
    exists "", "". repeat split; [done |]. intros ? ? _ Hlt. cbn in Hlt. lia.
  - destruct (m (String c s)) eqn:Hm.
    + intros [= ->]. exists "", (String c s). repeat split; [done |].
      intros ? ? _ Hlt. cbn in Hlt. lia.
    + intros Hs. destruct (IH Hs) as (pre & rest & -> & Hrest & Hmin).
      exists (String c pre), rest. repeat split; [done |].
      intros [| c' pre'] rest' Heq Hlt.
      * change ("" +:+ rest') with rest' in Heq. by subst rest'.
      * rewrite !app_cons in Heq. injection Heq as <- Heq.
        apply (Hmin pre' rest' Heq). cbn in Hlt. lia.
Qed.

Lemma search_none {A} (m : string -> option A) s :
  Re.search m s = None -> forall pre rest, s = pre +:+ rest -> m rest = None.
Proof.
  induction s as [| c s IH]; cbn.
  - destruct (m "") eqn:Hm; [done |]. intros _ [| ? ?] rest Heq; [| done].
    change ("" +:+ rest) with rest in Heq. by subst.
  - destruct (m (String c s)) eqn:Hm; [done |].
    intros Hs [| c' pre] rest Heq.
    + change ("" +:+ rest) with rest in Heq. by subst.
    + rewrite app_cons in Heq. injection Heq as <- Heq. by eapply IH.
Qed.

Lemma marker_at_match t pre g1 g2 post :
  marker_at t pre g1 g2 post ->
  exists rest g2',
    t = pre +:+ rest /\ Re.match_season_episode rest = Some (g1, g2')
    /\ (starts_with Py.is_digit post = false -> g2' = g2).
Proof.
  intros (-> & H1 & H2).
  exists ("S" +:+ g1 +:+ "/E" +:+ g2 +:+ post),
         (g2 +:+ (Re.span Py.is_digit post).1).
  split; [done |].
  split; [by apply match_season_episode_complete |].
  intros Hpost. by rewrite span_stop, app_empty_r.
Qed.

Lemma search_season_episode_first t g1 g2 :
  Re.search Re.match_season_episode t = Some (g1, g2) <->
  first_marker t g1 g2.
Proof.
  split.
  - intros Hs.
    destruct (search_found _ _ _ Hs) as (pre & rest & -> & Hm & Hmin).
    destruct (match_season_episode_sound _ _ _ Hm)
      as (post & -> & H1 & H2 & Hpost).
    exists pre, post. split; [done |]. split; [done |].
    intros pre' g1' g2' post' Hat.
    destruct (marker_at_match _ _ _ _ _ Hat) as (rest' & g & Heq & Hm' & _).
    destruct (decide (String.length pre <= String.length pre')%nat);
      [done |].
    rewrite (Hmin pre' rest' Heq) in Hm'; [done | lia].
  - intros (pre & post & Hat & Hpost & Hmin).
    destruct (marker_at_match _ _ _ _ _ Hat) as (rest & g & Heq & Hm & Hg).
    rewrite (Hg Hpost) in Hm. clear Hg.
    destruct (Re.search Re.match_season_episode t) as [[h1 h2] |] eqn:Hs.
    + destruct (search_found _ _ _ Hs) as (pre0 & rest0 & Heq0 & Hm0 & Hmin0).
      destruct (match_season_episode_sound _ _ _ Hm0)
        as (post0 & Hrest0 & H1 & H2 & Hpost0).
      assert (Hat0 : marker_at t pre0 h1 h2 post0).
      { split; [by rewrite Heq0, Hrest0 | done]. }
      pose proof (Hmin _ _ _ _ Hat0) as Hle.
      destruct (decide (String.length pre < String.length pre0)%nat)
        as [Hlt | Hge].
      { rewrite (Hmin0 pre rest Heq Hlt) in Hm. done. }
      assert (Hlen : String.length pre = String.length pre0) by lia.
      rewrite Heq0 in Heq.
      destruct (app_inv_length _ _ _ _ Heq (eq_sym Hlen)) as [_ ->].
      by rewrite <- Hm, <- Hm0.
    + rewrite (search_none _ _ Hs pre rest Heq) in Hm. done.
Qed.

Lemma search_season_episode_none t :
  Re.search Re.match_season_episode t = None <-> ~ has_marker t.
Proof.
  split.
  - intros Hs (pre & g1 & g2 & post & Hat).
    destruct (marker_at_match _ _ _ _ _ Hat) as (rest & g & Heq & Hm & _).
    rewrite (search_none _ _ Hs pre rest Heq) in Hm. done.
  - intros Hno.
    destruct (Re.search Re.match_season_episode t) as [[g1 g2] |] eqn:Hs;
      [| done].
    apply search_season_episode_first in Hs as (pre & post & Hat & _).
    destruct Hno. by exists pre, g1, g2, post.
Qed.

(** ** Season and episode of a title *)

Lemma mapM_outcome {A B} (f : A -> outcome B) (P : A -> B -> Prop) l :
  (forall x, x ∈ l -> exists y, f x = Ret y /\ P x y) ->
  exists l', mapM f l = Ret l' /\ Forall2 P l l'.
Proof.
  induction l as [| x l IH]; intros Hl.
  { exists []. by split; [| constructor]. }
  destruct (Hl x) as (y & Hy & HP); [left |].
  destruct IH as (l' & Hl' & HF); [intros z Hz; apply Hl; by right |].
  exists (y :: l'). split; [| by constructor].
  change (mapM f (x :: l)) with (y ← f x; k ← mapM f l; mret (y :: k)).
  by rewrite Hy, Hl'.
Qed.

Lemma first_marker_unique t g1 g2 h1 h2 :
  first_marker t g1 g2 -> first_marker t h1 h2 -> g1 = h1 /\ g2 = h2.
Proof.
  intros Hg%search_season_episode_first Hh%search_season_episode_first.
  rewrite Hg in Hh. by injection Hh as -> ->.
Qed.

Lemma determine_season_and_episode_of_spec r t :
  title_of r = Ret t ->
  exists r',
    determine_season_and_episode_of r = Ret r'
    /\ season_episode_extracted r r'.
Proof.
  intros Ht. unfold determine_season_and_episode_of. rewrite Ht. cbn.
  destruct (Re.search Re.match_season_episode t) as [[g1 g2] |] eqn:Hs.
  - eexists. split; [done |]. exists t. split; [done |].
    apply search_season_episode_first in Hs.
    assert (Hhas : has_marker t).
    { destruct Hs as (pre & post & Hat & _). by exists pre, g1, g2, post. }
    split; [| split; [| split]].
    + intros k H1 H2. by rewrite !lookup_insert_ne.
    + intros _. exists g1, g2. split; [done |].
      by rewrite lookup_insert_ne, !lookup_insert_eq.
    + done.
    + by rewrite lookup_insert_ne, !lookup_insert_eq.
  - eexists. split; [done |]. exists t. split; [done |].
    apply search_season_episode_none in Hs.
    split; [| split; [| split]].
    + intros k H1 H2. by rewrite !lookup_insert_ne.
    + done.
    + intros _. by rewrite lookup_insert_ne, !lookup_insert_eq.
    + by rewrite lookup_insert_ne, !lookup_insert_eq.
Qed.

(** C6: on records whose title is text, the extraction returns the records
    with season and episode set from the title: to the digit strings
    captured by the first match of [S(\d+)/E(\d+)] where the title has a
    match, and both to null where it has none; so season and episode are
    null together or not at all, and no other field changes. *)
Theorem season_and_episode_from_title results :
  (forall r, r ∈ results -> exists t, title_of r = Ret t) ->
  exists results',
    determine_season_and_episode results = Ret results'
    /\ Forall2 season_episode_extracted results results'.
Proof.
  intros Ht. apply mapM_outcome. intros r Hr.
  destruct (Ht r Hr) as [t Hrt].
  by apply (determine_season_and_episode_of_spec r t).
Qed.

(** A title with a marker and a title without. *)
Lemma season_and_episode_from_title_witness :
  exists results',
    determine_season_and_episode [pilot; trailer] = Ret results'
    /\ Forall2 season_episode_extracted [pilot; trailer] results'.
Proof.
  apply (season_and_episode_from_title [pilot; trailer]).
  intros r Hr. rewrite !elem_of_cons in Hr.
  destruct Hr as [-> | [-> | Hr]]; [| | by apply elem_of_nil in Hr].
  - exists "Show S1/E03 - Pilot". reflexivity.
  - exists "Show - Trailer". reflexivity.
Defined.

(** The example of the specification: the title "Show S1/E03 - Pilot" gives
    the season "1" and the episode "03"; a title without marker gives null
    for both. *)
Example season_and_episode_of_pilot :
  determine_season_and_episode [pilot; trailer]
  = Ret [<["episode" := VStr "03"]> (<["season" := VStr "1"]> pilot);
         <["episode" := VNone]> (<["season" := VNone]> trailer)].
Proof. reflexivity. Qed.

(** ** [int] and [str] *)

Lemma is_digit_facts c :
  Py.is_digit c = true ->
  Py.is_space c = false /\ Ascii.eqb c "+" = false
  /\ Ascii.eqb c "-" = false /\ Ascii.eqb c "_" = false
  /\ 0 <= Py.digit_value c <= 9.
Proof.
  destruct c as [[] [] [] [] [] [] [] []]; vm_compute;
    intuition congruence.
Qed.

Lemma ord_chr n : 0 <= n < 256 -> Py.ord (Py.chr n) = n.
Proof.
  intros Hn. unfold Py.ord, Py.chr.
  rewrite N_ascii_embedding; lia.
Qed.

Lemma is_digit_chr n : 0 <= n <= 9 -> Py.is_digit (Py.chr (48 + n)) = true.
Proof.
  intros Hn. unfold Py.is_digit. rewrite ord_chr by lia.
  apply andb_true_iff. split; apply Z.leb_le; lia.
Qed.

Lemma digit_value_chr n : 0 <= n <= 9 -> Py.digit_value (Py.chr (48 + n)) = n.
Proof. intros Hn. unfold Py.digit_value. rewrite ord_chr; lia. Qed.

Lemma decimal_app acc a b : decimal acc (a +:+ b) = decimal (decimal acc a) b.
Proof.
  revert acc. induction a as [| c a IH]; intros acc; [done |].
  rewrite app_cons. cbn. apply IH.
Qed.

Lemma decimal_bounds s acc :
  Py.all_chars Py.is_digit s = true -> 0 <= acc ->
  acc * 10 ^ Z.of_nat (String.length s) <= decimal acc s
  /\ decimal acc s < (acc + 1) * 10 ^ Z.of_nat (String.length s).
Proof.
  revert acc. induction s as [| c s IH]; intros acc Hs Hacc.
  { cbn. lia. }
  cbn [Py.all_chars] in Hs. apply andb_true_iff in Hs as [Hc Hs].
  destruct (is_digit_facts c Hc) as (_ & _ & _ & _ & Hv).
  cbn [decimal String.length].
  destruct (IH (10 * acc + Py.digit_value c) Hs) as [Hlo Hhi]; [lia |].
  rewrite Nat2Z.inj_succ, Z.pow_succ_r by lia.
  assert (0 < 10 ^ Z.of_nat (String.length s)) by (apply Z.pow_pos_nonneg; lia).
  split; nia.
Qed.

Lemma int_digits_of_digits s acc :
  Py.all_chars Py.is_digit s = true ->
  Py.int_digits acc s = Some (decimal acc s, "").
Proof.
  revert acc. induction s as [| c s IH]; intros acc Hs; [done |].
  cbn [Py.all_chars] in Hs. apply andb_true_iff in Hs as [Hc Hs].
  cbn [Py.int_digits decimal]. rewrite Hc. by apply IH.
Qed.

Lemma count_digits_of_digits s :
  Py.all_chars Py.is_digit s = true ->
  Py.count_digits s = Z.of_nat (String.length s).
Proof.
  induction s as [| c s IH]; intros Hs; [done |].
  cbn [Py.all_chars] in Hs. apply andb_true_iff in Hs as [Hc Hs].
  cbn [Py.count_digits String.length]. rewrite Hc, IH by done. lia.
Qed.


(** A run of digits within the limit is read as the number it denotes; a
    longer one is refused. *)
Lemma int_of_digits s :
  digits s -> within_limit s ->
  Py.int s = Some (decimal 0 s) /\ 0 <= decimal 0 s.
Proof.
  intros [Hne Hs] Hlim. split.
  - unfold Py.int. rewrite (count_digits_of_digits s Hs).
    destruct (Z.ltb_spec Py.int_max_str_digits (Z.of_nat (String.length s)));
      [unfold within_limit in Hlim; lia |].
    destruct s as [| c s]; [done |].
    pose proof Hs as Hs'.
    cbn [Py.all_chars] in Hs'. apply andb_true_iff in Hs' as [Hc Hr].
    destruct (is_digit_facts c Hc) as (Hsp & Hplus & Hminus & _ & _).
    cbn [Py.lstrip]. rewrite Hsp, Hplus, Hminus.
    unfold Py.int_unsigned. rewrite Hc.
    rewrite (int_digits_of_digits s _ Hr). done.
  - pose proof (decimal_bounds s 0 Hs). lia.
Qed.

Lemma int_of_long_digits s :
  digits s -> ~ within_limit s -> Py.int s = None.
Proof.
  intros [_ Hs] Hlong. apply int_too_long.
  rewrite (count_digits_of_digits s Hs). unfold within_limit in Hlong. lia.
Qed.

Lemma str_digits_spec fuel n acc :
  0 <= n < 10 ^ Z.of_nat (S fuel) ->
  exists d,
    Py.str_digits fuel n acc = d +:+ acc
    /\ digits d /\ decimal 0 d = n.
Proof.
  revert n acc. induction fuel as [| fuel IH]; intros n acc Hn.
  - exists (String (Py.chr (48 + n mod 10)) "").
    assert (n mod 10 = n) as Hmod by (apply Z.mod_small; cbn in Hn; lia).
    split; [done |]. rewrite Hmod.
    split; [split; [done |] |].
    + cbn. rewrite is_digit_chr; [done | cbn in Hn; lia].
    + cbn. rewrite digit_value_chr; [lia | cbn in Hn; lia].
  - cbn [Py.str_digits].
    destruct (n <? 10) eqn:Hlt.
    + apply Z.ltb_lt in Hlt.
      exists (String (Py.chr (48 + n mod 10)) "").
      assert (n mod 10 = n) as Hmod by (apply Z.mod_small; lia).
      split; [done |]. rewrite Hmod.
      split; [split; [done |] |].
      * cbn. rewrite is_digit_chr; [done | lia].
      * cbn. rewrite digit_value_chr; lia.
    + apply Z.ltb_ge in Hlt.
      assert (Hdiv : 0 <= n / 10 < 10 ^ Z.of_nat (S fuel)).
      { rewrite (Nat2Z.inj_succ (S fuel)), Z.pow_succ_r in Hn by lia.
        split; [apply Z.div_pos; lia |].
        apply Z.div_lt_upper_bound; lia. }
      destruct (IH (n / 10) (String (Py.chr (48 + n mod 10)) acc) Hdiv)
        as (d & Hd & [Hne Hdig] & Hval).
      assert (Hm : 0 <= n mod 10 <= 9)
        by (pose proof (Z.mod_pos_bound n 10); lia).
      exists (d +:+ String (Py.chr (48 + n mod 10)) "").
      split; [by rewrite Hd, app_assoc_str |].
      split; [split |].
      * by destruct d.
      * rewrite all_chars_app, Hdig. cbn.
        by rewrite is_digit_chr.
      * rewrite decimal_app, Hval. cbn.
        rewrite digit_value_chr by done.
        pose proof (Z.div_mod n 10). lia.
Qed.

Lemma str_digits_length fuel : forall n acc k,
  0 <= n < 10 ^ Z.of_nat (S k) ->
  (String.length (Py.str_digits fuel n acc) <= S k + String.length acc)%nat.
Proof.
  induction fuel as [| fuel IH]; intros n acc k Hn.
  { cbn [Py.str_digits String.length]. lia. }
  cbn [Py.str_digits].
  destruct (Z.ltb_spec n 10) as [Hlt | Hge].
  { cbn [String.length]. lia. }
  destruct k as [| k].
  { change (10 ^ Z.of_nat 1) with 10 in Hn. lia. }
  assert (Hdiv : 0 <= n / 10 < 10 ^ Z.of_nat (S k)).
  { rewrite (Nat2Z.inj_succ (S k)), Z.pow_succ_r in Hn by lia.
    split; [apply Z.div_pos; lia |].
    apply Z.div_lt_upper_bound; lia. }
  pose proof (IH (n / 10) (String (Py.chr (48 + n mod 10)) acc) k Hdiv) as Hlen.
  cbn [String.length] in Hlen. lia.
Qed.

(** A number below [10 ^ k] is written with [k] digits at most. *)
Lemma str_nonneg_length_le n k :
  1 <= k -> 0 <= n < 10 ^ k ->
  Z.of_nat (String.length (Py.str_nonneg n)) <= k.
Proof.
  intros Hk Hn. unfold Py.str_nonneg.
  pose proof (str_digits_length (Z.to_nat (Z.log2 n)) n "" (Z.to_nat (k - 1)))
    as Hlen.
  replace (Z.of_nat (S (Z.to_nat (k - 1)))) with k in Hlen by lia.
  specialize (Hlen Hn). cbn [String.length] in Hlen. lia.
Qed.

Lemma str_nonneg_spec n :
  0 <= n ->
  digits (Py.str_nonneg n) /\ decimal 0 (Py.str_nonneg n) = n.
Proof.
  intros Hn. unfold Py.str_nonneg.
  destruct (str_digits_spec (Z.to_nat (Z.log2 n)) n "") as (d & Hd & Hdig & Hv).
  - split; [done |].
    rewrite Nat2Z.inj_succ, Z2Nat.id by apply Z.log2_nonneg.
    destruct (decide (n = 0)) as [-> | Hpos]; [done |].
    pose proof (Z.log2_spec n ltac:(lia)) as [_ Hlog].
    eapply Z.lt_le_trans; [exact Hlog |].
    apply Z.pow_le_mono_l. pose proof (Z.log2_nonneg n). lia.
  - rewrite Hd, app_empty_r. done.
Qed.



(** [str] writes the decimal numeral that [int] reads back, within the
    limit on the digits. *)
Lemma int_str n :
  0 <= n < 10 ^ Py.int_max_str_digits -> Py.int (Py.str n) = Some n.
Proof.
  intros Hn. unfold Py.str.
  destruct (Z.ltb_spec n 0); [lia |].
  destruct (str_nonneg_spec n) as [Hdig Hval]; [lia |].
  destruct (int_of_digits _ Hdig) as [-> _]; [| by rewrite Hval].
  by apply str_nonneg_length_le.
Qed.

(** ** File names *)









(** A season or an episode that [int] does not read: the code of line 264
    fails on it. *)
Lemma episode_code_fails r s e :
  r !! "season" = Some (VStr s) -> r !! "episode" = Some (VStr e) ->
  Py.int s = None \/ Py.int e = None ->
  episode_code r = Raise ValueError.
Proof.
  intros Hs He Hnone. unfold episode_code, subscript.
  rewrite Hs. cbn. destruct (Py.int s) as [zs |]; [| done]. cbn.
  rewrite He. cbn. by destruct Hnone as [| ->].
Qed.





(** ** Pagination *)

Section Pagination.
Variable post : request -> response.
Variables (query : string).
Variables (use_title_field use_topic_field include_future_content : bool).

Lemma query_api_loop_stops n : forall fuel start all_results w,
  (forall k, (k < n)%nat ->
     goes_on (page_of post query use_title_field use_topic_field
                include_future_content (start + k))) ->
  ~ goes_on (page_of post query use_title_field use_topic_field
               include_future_content (start + n)) ->
  (n < fuel)%nat ->
  query_api_loop post fuel query use_title_field use_topic_field
    include_future_content (100 * Z.of_nat start) 100 all_results w
  = (Ret (all_results
          ++ concat ((fun k =>
                        results (page_of post query use_title_field
                                   use_topic_field include_future_content
                                   k)) <$> seq start n)),
     {| stdin := stdin w;
        trace :=
          trace w
          ++ (Post ∘ page_request query use_title_field use_topic_field
                       include_future_content <$> seq start (S n))
          ++ stop_report (page_of post query use_title_field
                            use_topic_field include_future_content
                            (start + n)) |}).
Proof.
  induction n as [| n IH]; intros fuel start all_results w Hgo Hstop Hfuel.
  - destruct fuel as [| fuel]; [lia |].
    rewrite Nat.add_0_r in Hstop.
    cbn [query_api_loop seq fmap list_fmap concat].
    unfold io_bind, requests_post, emit, io_ret, io_bind.
    cbn [stdin trace].
    fold (page_request query use_title_field use_topic_field
            include_future_content start).
    fold (page_of post query use_title_field use_topic_field
            include_future_content start).
    rewrite Nat.add_0_r, app_nil_r. unfold stop_report, print, emit.
    destruct (Z.eqb_spec
                (status_code (page_of post query use_title_field
                                use_topic_field include_future_content
                                start)) 200) as [H200 | H200];
      cbn [negb].
    + destruct (results _) eqn:Hres.
      * by rewrite app_nil_r.
      * destruct Hstop. split; [done |]. by rewrite Hres.
    + cbn. by rewrite <- !app_assoc.
  - destruct fuel as [| fuel]; [lia |].
    pose proof (Hgo 0%nat ltac:(lia)) as [H200 Hne].
    rewrite Nat.add_0_r in H200, Hne.
    cbn [query_api_loop].
    unfold io_bind at 1. unfold requests_post, emit, io_ret, io_bind.
    cbn [stdin trace].
    fold (page_request query use_title_field use_topic_field
            include_future_content start).
    fold (page_of post query use_title_field use_topic_field
            include_future_content start).
    rewrite H200. cbn [Z.eqb Pos.eqb negb].
    destruct (results (page_of post query use_title_field use_topic_field
                         include_future_content start))
      as [| v vs] eqn:Hres; [done |].
    replace (100 * Z.of_nat start + 100) with (100 * Z.of_nat (S start))
      by lia.
    rewrite (IH fuel (S start)); [| | | lia].
    + cbn [stdin trace seq fmap list_fmap concat].
      rewrite Hres.
      replace (S start + n)%nat with (start + S n)%nat by lia.
      f_equal; [by rewrite <- !app_assoc |].
      f_equal. by rewrite <- !app_assoc.
    + intros k Hk. replace (S start + k)%nat with (start + S k)%nat by lia.
      apply Hgo. lia.
    + by replace (S start + n)%nat with (start + S n)%nat by lia.
Qed.
End Pagination.

(** C4: when the pages 0 to [n - 1] of the index are successes that are not
    empty and the page [n] is empty or a failure, pagination (given room for
    more than [n] requests) returns the results of the pages 0 to [n - 1]
    joined in page order.  It asks for the pages 0 to [n] and no other, and
    after a failure it reports the status and still returns what it had. *)
Theorem query_api_concatenates_pages post query use_title_field
    use_topic_field include_future_content n fuel w :
  let page :=
    page_of post query use_title_field use_topic_field
      include_future_content in
  (forall k, (k < n)%nat -> goes_on (page k)) ->
  ~ goes_on (page n) ->
  (n < fuel)%nat ->
  let all_results := concat ((fun k => results (page k)) <$> seq 0 n) in
  query_api post fuel query use_title_field use_topic_field
    include_future_content w
  = (Ret all_results,
     {| stdin := stdin w;
        trace :=
          trace w
          ++ [Print ("Searching for '" +:+ query +:+ "'...")]
          ++ (Post ∘ page_request query use_title_field use_topic_field
                       include_future_content <$> seq 0 (S n))
          ++ stop_report (page n)
          ++ [Print ("Found " +:+ Py.str (len all_results)
                     +:+ " results." +:+ nl)] |}).
Proof.
  intros page Hgo Hstop Hfuel all_results.
  unfold query_api, print. unfold io_bind at 1. unfold emit at 1.
  unfold io_bind at 1.
  change 0 with (100 * Z.of_nat 0).
  rewrite (query_api_loop_stops post query use_title_field use_topic_field
             include_future_content n fuel 0 []); [| done | done | done].
  cbn [stdin trace app]. unfold io_bind, emit, io_ret. cbn [stdin trace].
  f_equal. f_equal. by rewrite <- !app_assoc.
Qed.

(** Two pages of hits and then the status 503: the hits of the two pages
    are returned, in page order. *)
Lemma query_api_concatenates_pages_witness :
  query_api failing_index 5 "news" false false false empty_world
  = (Ret [hit "a"; hit "b"; hit "c"],
     {| stdin := [];
        trace :=
          [Print "Searching for 'news'...";
           Post (page_request "news" false false false 0);
           Post (page_request "news" false false false 1);
           Post (page_request "news" false false false 2);
           Print "Error querying API: 503";
           Print ("Found 3 results." +:+ nl)] |}).
Proof.
  apply (query_api_concatenates_pages failing_index "news" false false false
           2 5 empty_world).
  - intros k Hk.
    destruct k as [| [| k]]; [| | lia]; by vm_compute.
  - intros [H _]. by vm_compute in H.
  - lia.
Defined.

(** An index whose pages never end keeps the loop going: whatever the
    room, the model runs out of it. *)
Lemma query_api_loop_goes_on post query use_title_field use_topic_field
    include_future_content fuel : forall start all_results w,
  (forall k,
     goes_on (post (page_request query use_title_field use_topic_field
                      include_future_content k))) ->
  (query_api_loop post fuel query use_title_field use_topic_field
     include_future_content (100 * Z.of_nat start) 100 all_results w).1
  = OutOfFuel.
Proof.
  induction fuel as [| fuel IH]; intros start all_results w Hgo; [done |].
  destruct (Hgo start) as [H200 Hne].
  cbn [query_api_loop].
  unfold io_bind at 1. unfold requests_post, emit, io_ret, io_bind.
  cbn [stdin trace].
  fold (page_request query use_title_field use_topic_field
          include_future_content start).
  rewrite H200. cbn [Z.eqb Pos.eqb negb].
  destruct (results _) as [| v vs] eqn:Hres; [done |].
  replace (100 * Z.of_nat start + 100) with (100 * Z.of_nat (S start)) by lia.
  by apply IH.
Qed.

(** ** Topics *)

Lemma leb_trans_str a b c :
  String.leb a b = true -> String.leb b c = true -> String.leb a c = true.
Proof.
  intros Hab%Is_true_true Hbc%Is_true_true. apply Is_true_true.
  change (String.le a c). by trans b.
Qed.

Lemma compare_refl_str a : String.compare a a = Eq.
Proof.
  induction a as [| x a IH]; cbn; [done |].
  unfold Ascii.compare. by rewrite N.compare_refl.
Qed.

Lemma str_lt_leb a b : str_lt a b <-> String.leb a b = true /\ a <> b.
Proof.
  unfold str_lt, String.ltb, String.leb.
  destruct (String.compare a b) eqn:Hc.
  - apply String.compare_eq_iff in Hc.
    split; [done | by intros [_ Hne]].
  - split; [| done]. intros _. split; [done |].
    intros ->. by rewrite compare_refl_str in Hc.
  - split; [done | by intros [Hle _]].
Qed.

Lemma elem_of_collect_topics t all_results :
  t ∈ collect_topics all_results <->
  t <> "" /\ exists v, v ∈ all_results /\ get v "topic" = VStr t.
Proof.
  unfold collect_topics.
  assert (H : forall acc : gset string,
            t ∈ foldl (fun topics video_info =>
                         match get video_info "topic" with
                         | VStr topic =>
                             if truthy (VStr topic)
                             then topics ∪ {[topic]} else topics
                         | VNone => topics
                         end) acc all_results
            <-> t ∈ acc
                \/ (t <> "" /\
                    exists v, v ∈ all_results /\ get v "topic" = VStr t)).
  { induction all_results as [| v l IH]; intros acc; cbn [foldl].
    { split; [by left |]. intros [? | (_ & v & Hv & _)]; [done |].
      by apply elem_of_nil in Hv. }
    rewrite IH. clear IH.
    destruct (get v "topic") as [| topic] eqn:Hv.
    - split; intros [? | (Hne & v' & Hin & Hget)]; auto.
      + right. split; [done |]. exists v'. split; [by right | done].
      + apply elem_of_cons in Hin as [-> | Hin]; [congruence |].
        right. split; [done |]. by exists v'.
    - cbn [truthy]. destruct (String.eqb_spec topic "") as [-> | Hne'];
        cbn [negb].
      + split; intros [? | (Hne & v' & Hin & Hget)]; auto.
        * right. split; [done |]. exists v'. split; [by right | done].
        * apply elem_of_cons in Hin as [-> | Hin]; [congruence |].
          right. split; [done |]. by exists v'.
      + rewrite elem_of_union, elem_of_singleton.
        split.
        * intros [[? | ->] | (Hne & v' & Hin & Hget)]; auto.
          -- right. split; [done |]. exists v. split; [left | done].
          -- right. split; [done |]. exists v'. split; [by right | done].
        * intros [? | (Hne & v' & Hin & Hget)]; auto.
          apply elem_of_cons in Hin as [-> | Hin].
          -- left. right. congruence.
          -- right. split; [done |]. by exists v'. }
  rewrite H. split; [| auto]. intros [Hin | ?]; [| done].
  by apply not_elem_of_empty in Hin.
Qed.

Lemma StronglySorted_strict {A} (R : A -> A -> Prop) l :
  StronglySorted R l -> NoDup l ->
  StronglySorted (fun a b => R a b /\ a <> b) l.
Proof.
  induction 1 as [| x l Hl IH Hx]; intros Hnd; [constructor |].
  apply NoDup_cons in Hnd as [Hnin Hnd].
  constructor; [by apply IH |].
  apply Forall_forall. intros y Hy. split.
  - rewrite Forall_forall in Hx. by apply Hx.
  - by intros ->.
Qed.

(** The topic list: the non-empty topics of the results, each once, in
    ascending lexicographic order. *)
Lemma sorted_topics_spec all_results :
  StronglySorted str_lt (sorted_topics all_results)
  /\ forall t, t ∈ sorted_topics all_results <->
       t <> "" /\ exists v, v ∈ all_results /\ get v "topic" = VStr t.
Proof.
  unfold sorted_topics. split.
  - eapply StronglySorted_impl;
      [| apply StronglySorted_strict;
         [apply (sorted_in_order String.leb id);
            [apply String.leb_total | apply leb_trans_str] |]].
    + intros a b [Hle Hne]. by apply str_lt_leb.
    + rewrite sorted_perm. apply NoDup_elements.
  - intros t. by rewrite elem_of_sorted, elem_of_elements,
      elem_of_collect_topics.
Qed.

(** ** The topic prompt *)

Lemma for_each_emit {A} (f : A -> event) (body : A -> io unit) l w :
  (forall x, body x = emit (f x)) ->
  for_each l body w
  = (Ret tt, {| stdin := stdin w; trace := trace w ++ (f <$> l) |}).
Proof.
  intros Hbody. revert w. induction l as [| x l IH]; intros w; cbn.
  { unfold io_ret. by rewrite app_nil_r, world_eta. }
  unfold io_bind. rewrite Hbody. unfold emit at 1. rewrite IH.
  cbn [stdin trace]. by rewrite <- app_assoc.
Qed.

Lemma index_in_range {A} (l : list A) k :
  1 <= k <= len l ->
  exists x, l !! Z.to_nat (k - 1) = Some x /\ index l (k - 1) = Ret x.
Proof.
  intros Hk. unfold len in Hk.
  destruct (lookup_lt_is_Some_2 l (Z.to_nat (k - 1))) as [x Hx]; [lia |].
  exists x. split; [done |]. unfold index.
  destruct (Z.ltb_spec (k - 1) 0); [lia |]. by rewrite Hx.
Qed.

Lemma select_topic_round_rejected topics line rest tr :
  rejected topics line ->
  select_topic_round topics {| stdin := line :: rest; trace := tr |}
  = (Ret None,
     {| stdin := rest;
        trace := tr ++ [Prompt topic_prompt; retry_report line] |}).
Proof.
  unfold rejected, retry_report, select_topic_round, try_except_ValueError.
  unfold io_bind at 1. unfold input at 1. cbn [stdin trace].
  unfold io_bind at 1. unfold lift at 1. cbn [int_value].
  destruct (Py.int line) as [choice |]; intros Hrej.
  - destruct ((1 <=? choice) && (choice <=? len topics)) eqn:Hin.
    { apply andb_true_iff in Hin as [?%Z.leb_le ?%Z.leb_le]. lia. }
    unfold io_bind, print, emit, io_ret. cbn [stdin trace].
    by rewrite <- app_assoc.
  - unfold io_bind, print, emit, io_ret. cbn [stdin trace].
    by rewrite <- app_assoc.
Qed.

Lemma select_topic_round_accepted topics line rest tr k :
  Py.int line = Some k -> 1 <= k <= len topics ->
  exists t,
    topics !! Z.to_nat (k - 1) = Some t
    /\ select_topic_round topics {| stdin := line :: rest; trace := tr |}
       = (Ret (Some t),
          {| stdin := rest; trace := tr ++ [Prompt topic_prompt] |}).
Proof.
  intros Hint Hk.
  destruct (index_in_range topics k Hk) as (t & Ht & Hidx).
  exists t. split; [done |].
  unfold select_topic_round, try_except_ValueError.
  unfold io_bind at 1. unfold input at 1. cbn [stdin trace].
  unfold io_bind at 1. unfold lift at 1. cbn [int_value]. rewrite Hint.
  destruct ((1 <=? k) && (k <=? len topics)) eqn:Hin.
  - unfold io_bind, lift, io_ret. by rewrite Hidx.
  - apply andb_false_iff in Hin as [?%Z.leb_gt | ?%Z.leb_gt]; lia.
Qed.

Lemma select_topic_loop topics bad : forall fuel line rest tr k,
  Forall (rejected topics) bad ->
  Py.int line = Some k -> 1 <= k <= len topics ->
  (length bad < fuel)%nat ->
  exists t,
    topics !! Z.to_nat (k - 1) = Some t
    /\ while_true fuel (select_topic_round topics)
         {| stdin := bad ++ line :: rest; trace := tr |}
       = (Ret t,
          {| stdin := rest;
             trace := tr ++ retries bad ++ [Prompt topic_prompt] |}).
Proof.
  induction bad as [| b bad IH]; intros fuel line rest tr k Hbad Hint Hk Hfuel.
  - destruct fuel as [| fuel]; [cbn in Hfuel; lia |].
    destruct (select_topic_round_accepted topics line rest tr k Hint Hk)
      as (t & Ht & Hrun).
    exists t. split; [done |].
    cbn [while_true app]. unfold io_bind. rewrite Hrun. done.
  - destruct fuel as [| fuel]; [cbn in Hfuel; lia |].
    apply Forall_cons in Hbad as [Hb Hbad].
    destruct (IH fuel line rest
                (tr ++ [Prompt topic_prompt; retry_report b]) k)
      as (t & Ht & Hrun); [done | done | done | cbn in Hfuel; lia |].
    exists t. split; [done |].
    cbn [while_true]. unfold io_bind.
    rewrite <- app_comm_cons.
    rewrite (select_topic_round_rejected topics b _ tr Hb).
    rewrite Hrun. unfold retries. cbn [mbind list_bind app].
    by rewrite <- !app_assoc.
Qed.

(** When the input ends before a line is accepted, the prompt has been put
    once for every line and once more. *)
Lemma select_topic_loop_eof topics bad : forall fuel tr,
  Forall (rejected topics) bad ->
  (length bad < fuel)%nat ->
  while_true fuel (select_topic_round topics)
    {| stdin := bad; trace := tr |}
  = (Raise EOFError,
     {| stdin := [];
        trace := tr ++ retries bad ++ [Prompt topic_prompt] |}).
Proof.
  induction bad as [| b bad IH]; intros fuel tr Hbad Hfuel.
  - destruct fuel as [| fuel]; [cbn in Hfuel; lia |]. reflexivity.
  - destruct fuel as [| fuel]; [cbn in Hfuel; lia |].
    apply Forall_cons in Hbad as [Hb Hbad].
    cbn [while_true]. unfold io_bind.
    rewrite (select_topic_round_rejected topics b _ tr Hb).
    rewrite IH; [| done | cbn in Hfuel; lia].
    unfold retries. cbn [mbind list_bind app]. by rewrite <- !app_assoc.
Qed.

Lemma select_topic_listing topics w :
  for_each (enumerate topics 1)
    (fun '(idx, topic) => print (Py.str idx +:+ ": " +:+ topic)) w
  = (Ret tt,
     {| stdin := stdin w;
        trace := trace w
                 ++ ((fun '(idx, topic) =>
                        Print (Py.str idx +:+ ": " +:+ topic))
                       <$> enumerate topics 1) |}).
Proof. apply for_each_emit. by intros [idx topic]. Qed.

(** C2: with more than one topic, the lines that are not a number and the
    numbers out of range are each answered and followed by the prompt
    again; the first line that is a number [k] in range ends the loop, and
    the records returned are exactly those whose topic is the [k]-th of the
    topics in ascending lexicographic order.  A line is a number when [int]
    reads it: a line of more digits than its limit is not, whatever it
    denotes. *)
Theorem select_topic_reprompts all_results bad line rest tr k :
  let topics := sorted_topics all_results in
  1 < len topics ->
  Forall (rejected topics) bad ->
  Py.int line = Some k -> 1 <= k <= len topics ->
  exists t,
    topics !! Z.to_nat (k - 1) = Some t
    /\ select_topic all_results
         {| stdin := bad ++ line :: rest; trace := tr |}
       = (Ret (filter (fun v => get v "topic" = VStr t) all_results, VStr t),
          {| stdin := rest;
             trace :=
               tr ++ topic_listing topics ++ retries bad
               ++ [Prompt topic_prompt;
                   Print (nl +:+ "Proceeding with topic: " +:+ t +:+ nl)] |})
    /\ StronglySorted str_lt topics
    /\ (forall s, s ∈ topics <->
          s <> "" /\ exists v, v ∈ all_results /\ get v "topic" = VStr s)
    /\ (forall l, Py.int_max_str_digits < Py.count_digits l ->
          rejected topics l
          /\ retry_report l = Print "Please enter a valid number.").
Proof.
  intros topics Hmany Hbad Hint Hk.
  destruct (select_topic_loop topics bad
              (S (length (bad ++ line :: rest))) line rest
              (tr ++ topic_listing topics) k Hbad Hint Hk)
    as (t & Ht & Hrun).
  { rewrite length_app. lia. }
  exists t. split; [done |].
  split;
    [| split; [apply sorted_topics_spec | split; [apply sorted_topics_spec |]];
       intros l Hl; unfold rejected, retry_report;
       by rewrite (int_too_long l Hl)].
  unfold select_topic. fold topics.
  destruct (Z.ltb_spec 1 (len topics)); [| lia].
  unfold io_bind at 1. unfold print at 1, emit at 1. cbn [stdin trace].
  unfold io_bind at 1. rewrite select_topic_listing. cbn [stdin trace].
  unfold io_bind at 1. unfold while_true_reading. cbn [stdin].
  rewrite <- app_assoc.
  change ([Print "Multiple topics found:"]
          ++ ((fun '(idx, topic) => Print (Py.str idx +:+ ": " +:+ topic))
                <$> enumerate topics 1))
    with (topic_listing topics).
  rewrite Hrun.
  unfold io_bind, print, emit, io_ret. cbn [stdin trace].
  by rewrite <- !app_assoc.
Qed.

(** The example of the specification: topics A, A and B; after a line that
    is not a number and a number out of range, the choice 2 gives the
    records of topic B. *)
Lemma select_topic_reprompts_witness :
  select_topic topics_a_a_b {| stdin := ["b"; "3"; "2"; "1"]; trace := [] |}
  = (Ret ([with_topic "three" "B"], VStr "B"),
     {| stdin := ["1"];
        trace :=
          [Print "Multiple topics found:"; Print "1: A"; Print "2: B";
           Prompt topic_prompt; Print "Please enter a valid number.";
           Prompt topic_prompt; Print "Invalid selection. Try again.";
           Prompt topic_prompt;
           Print (nl +:+ "Proceeding with topic: B" +:+ nl)] |}).
Proof.
  destruct (select_topic_reprompts topics_a_a_b ["b"; "3"] "2" ["1"] [] 2)
    as (t & Ht & Hrun & _).
  - by vm_compute.
  - apply Forall_cons. split; [by vm_compute |].
    apply Forall_cons. split; [| by apply Forall_nil].
    unfold rejected. change (Py.int "3") with (Some 3).
    replace (len (sorted_topics topics_a_a_b)) with 2
      by (vm_compute; reflexivity).
    lia.
  - reflexivity.
  - replace (len (sorted_topics topics_a_a_b)) with 2
      by (vm_compute; reflexivity).
    lia.
  - vm_compute in Ht. injection Ht as <-. cbn [app] in Hrun.
    rewrite Hrun. vm_compute. reflexivity.
Defined.

(** ** The result of the topic selection *)

Lemma select_topic_round_chooses topics w t w' :
  select_topic_round topics w = (Ret (Some t), w') -> t ∈ topics.
Proof.
  unfold select_topic_round, try_except_ValueError.
  unfold io_bind at 1. unfold input at 1.
  destruct (stdin w) as [| line rest]; [done |].
  unfold io_bind at 1. unfold lift at 1. cbn [int_value].
  destruct (Py.int line) as [choice |].
  - destruct ((1 <=? choice) && (choice <=? len topics)).
    + unfold io_bind, lift, io_ret, index.
      destruct (choice - 1 <? 0); [done |].
      destruct (topics !! Z.to_nat (choice - 1)) as [x |] eqn:Hx; [| done].
      intros [= <- _]. by eapply list_elem_of_lookup_2.
    + unfold io_bind, print, emit, io_ret. done.
  - unfold io_bind, print, emit, io_ret. done.
Qed.

Lemma select_topic_loop_chooses topics fuel : forall w t w',
  while_true fuel (select_topic_round topics) w = (Ret t, w') -> t ∈ topics.
Proof.
  induction fuel as [| fuel IH]; intros w t w'; [done |].
  cbn [while_true]. intros H.
  apply io_bind_inv in H as ([s |] & w1 & Hround & H).
  - injection H as <- _. by eapply select_topic_round_chooses.
  - by eapply IH.
Qed.

(** C3, as stated, fails: when one topic only is found, all the records are
    returned, the ones without topic too. *)
Lemma single_topic_keeps_records_without_topic :
  select_topic one_topic_and_none empty_world
  = (Ret (one_topic_and_none, VStr "A"),
     {| stdin := [];
        trace := [Print ("Only one topic found: A" +:+ nl)] |})
  /\ get (with_topic "one" "A") "topic" = VStr "A"
  /\ get (hit "two") "topic" = VNone.
Proof. repeat split; vm_compute; reflexivity. Qed.

(** C3, amended: without topic in the results, the empty list and no topic
    are returned; with one topic, all the records are returned, and each of
    them has that topic or none (missing, null or empty); with more than
    one, whatever is returned is the topic chosen and exactly the records
    that have it. *)
Theorem select_topic_result all_results w :
  let topics := sorted_topics all_results in
  (topics = [] ->
   select_topic all_results w
   = (Ret ([], VNone),
      {| stdin := stdin w;
         trace := trace w ++ [Print ("No topics found in results." +:+ nl)] |}))
  /\ (forall t, topics = [t] ->
        select_topic all_results w
        = (Ret (all_results, VStr t),
           {| stdin := stdin w;
              trace := trace w
                       ++ [Print ("Only one topic found: " +:+ t +:+ nl)] |})
        /\ Forall (fun v => get v "topic" = VStr t
                            \/ truthy (get v "topic") = false) all_results)
  /\ (1 < len topics ->
      forall selected t w',
        select_topic all_results w = (Ret (selected, t), w') ->
        exists s,
          t = VStr s /\ s ∈ topics
          /\ selected = filter (fun v => get v "topic" = VStr s) all_results
          /\ Forall (fun v => get v "topic" = VStr s) selected).
Proof.
  intros topics. split; [| split].
  - intros Hnone. unfold select_topic. fold topics. rewrite Hnone. done.
  - intros t Hone. split.
    + unfold select_topic. fold topics. rewrite Hone. done.
    + apply Forall_forall. intros v Hv.
      destruct (get v "topic") as [| s] eqn:Hs; [by right |].
      destruct (decide (s = "")) as [-> | Hne]; [by right |].
      left. f_equal.
      assert (Hin : s ∈ topics).
      { apply sorted_topics_spec. split; [done |]. by exists v. }
      rewrite Hone in Hin. by apply list_elem_of_singleton in Hin.
  - intros Hmany selected t w'. unfold select_topic. fold topics.
    destruct (Z.ltb_spec 1 (len topics)) as [_ | ?]; [| lia]. intros H.
    apply io_bind_inv in H as (? & w1 & _ & H).
    apply io_bind_inv in H as (? & w2 & _ & H).
    apply io_bind_inv in H as (s & w3 & Hloop & H).
    apply io_bind_inv in H as (? & w4 & _ & H).
    injection H as <- <- _.
    exists s. split; [done |].
    split; [by eapply select_topic_loop_chooses |].
    split; [done |].
    apply Forall_forall. intros v Hv.
    by apply list_elem_of_filter in Hv as [Hv _].
Qed.

(** One topic found among a record of that topic and a record without
    topic: both records are returned. *)
Lemma select_topic_result_witness :
  select_topic one_topic_and_none empty_world
  = (Ret (one_topic_and_none, VStr "A"),
     {| stdin := [];
        trace := [Print ("Only one topic found: A" +:+ nl)] |})
  /\ Forall (fun v => get v "topic" = VStr "A"
                      \/ truthy (get v "topic") = false) one_topic_and_none.
Proof.
  destruct (select_topic_result one_topic_and_none empty_world)
    as (_ & Hone & _).
  apply (Hone "A"). vm_compute. reflexivity.
Defined.

(** ** The season prompt *)

Lemma determine_season_and_episode_keys results :
  (forall r, r ∈ results -> exists t, title_of r = Ret t) ->
  exists results',
    determine_season_and_episode results = Ret results'
    /\ length results' = length results
    /\ forall x, x ∈ results' ->
         is_Some (x !! "season") /\ is_Some (x !! "episode").
Proof.
  intros Ht.
  destruct (mapM_outcome determine_season_and_episode_of
              (fun _ r' => is_Some (r' !! "season")
                           /\ is_Some (r' !! "episode")) results)
    as (results' & Hrun & HF).
  { intros r Hr. destruct (Ht r Hr) as [t Hrt].
    unfold determine_season_and_episode_of. rewrite Hrt. cbn.
    destruct (Re.search Re.match_season_episode t) as [[g1 g2] |];
      eexists; (split; [done |]);
      rewrite lookup_insert_ne, !lookup_insert_eq by done; eauto. }
  exists results'. split; [done |].
  split; [symmetry; by eapply Forall2_length |].
  intros x Hx.
  apply list_elem_of_lookup in Hx as [i Hi].
  destruct (Forall2_lookup_r _ _ _ _ _ HF Hi) as (r & _ & Hr). done.
Qed.

Lemma dict_append_not_empty seasons k v :
  seasons <> [] -> dict_append seasons k v <> [].
Proof.
  destruct seasons as [| [k' vs] seasons]; [done |]. intros _. cbn.
  by destruct (decide (k = k')).
Qed.

Lemma group_by_season_runs results : forall acc,
  (forall x, x ∈ results -> is_Some (x !! "season")) ->
  exists seasons,
    group_by_season_from acc results = Ret seasons
    /\ (acc <> [] \/ results <> [] -> seasons <> []).
Proof.
  induction results as [| x l IH]; intros acc Hl; cbn [group_by_season_from].
  { exists acc. split; [done |]. by intros [? | ?]. }
  destruct (Hl x) as [k Hk]; [left |].
  unfold add_to_season, subscript. rewrite Hk.
  cbn [mbind outcome_bind].
  destruct (IH (dict_append
                  (if dict_lookup acc k is None
                   then acc ++ [(k, [])] else acc) k x))
    as (seasons & Hrun & Hne); [intros y Hy; apply Hl; by right |].
  exists seasons. split; [exact Hrun |]. intros _. apply Hne. left.
  apply dict_append_not_empty.
  destruct acc as [| p acc]; [done |].
  by destruct (dict_lookup (p :: acc) k).
Qed.

Lemma select_season_round_text seasons line rest tr :
  line <> "" -> Py.lower line <> "y" -> Py.int line = None ->
  select_season_round seasons {| stdin := line :: rest; trace := tr |}
  = (Raise (SystemExit 1),
     {| stdin := rest;
        trace := tr ++ [Prompt season_prompt;
                        Print "Please enter a valid number."] |}).
Proof.
  intros Hne Hy Hint. unfold select_season_round.
  unfold io_bind at 1. unfold input at 1. cbn [stdin trace truthy].
  destruct (String.eqb_spec line ""); [done |].
  destruct (String.eqb_spec (Py.lower line) "y"); [done |].
  cbn [negb orb]. unfold try_except_ValueError.
  unfold io_bind at 1. unfold lift at 1. cbn [int_value]. rewrite Hint.
  unfold io_bind, print, emit, exit, raise, lift. cbn [stdin trace].
  by rewrite <- app_assoc.
Qed.

(** C1, as stated, fails: the line "abc" at the season prompt ends the run
    with the exit status 1; the prompt is put once and the next line, a
    valid choice, is never read. *)
Lemma season_prompt_exits_on_text :
  select_season [pilot] {| stdin := ["abc"; "1"]; trace := [] |}
  = (Raise (SystemExit 1),
     {| stdin := ["1"];
        trace :=
          [Print "Available seasons:"; Print "1: Season 1 (1 episodes)";
           Prompt season_prompt; Print "Please enter a valid number."] |})
  /\ Py.int "abc" = None /\ "abc" <> "" /\ Py.lower "abc" <> "y".
Proof. repeat split; try done; vm_compute; reflexivity. Qed.

(** C1, amended: at the season prompt a line that is not empty, not "y" in
    either case and not a number ends the run with the exit status 1, after
    the report "Please enter a valid number."; the prompt is put once and
    no further line is read. *)
Theorem select_season_exits_on_text results line rest tr :
  results <> [] ->
  (forall r, r ∈ results -> exists t, title_of r = Ret t) ->
  line <> "" -> Py.lower line <> "y" -> Py.int line = None ->
  exists listing,
    select_season results {| stdin := line :: rest; trace := tr |}
    = (Raise (SystemExit 1),
       {| stdin := rest;
          trace := tr ++ listing
                   ++ [Prompt season_prompt;
                       Print "Please enter a valid number."] |})
    /\ Forall is_print listing.
Proof.
  intros Hne Ht Hline Hy Hint.
  destruct (determine_season_and_episode_keys results Ht)
    as (results1 & Hdet & Hlen & Hkeys).
  pose proof (sort_seasons_run results1 Hkeys) as Hsort.
  set (results2 := sorted pair_le season_episode_of results1) in Hsort.
  destruct (group_by_season_runs results2 []) as (seasons & Hgroup & Hsome).
  { intros x Hx. apply elem_of_sorted in Hx. by apply Hkeys. }
  assert (Hseasons : seasons <> []).
  { apply Hsome. right. intros Hnil.
    assert (length results2 = 0%nat) as Hl0 by by rewrite Hnil.
    unfold results2 in Hl0. rewrite sorted_length, Hlen in Hl0.
    by destruct results. }
  exists (Print "Available seasons:"
          :: ((fun '(idx, (season, episodes)) =>
                 Print (Py.str idx +:+ ": Season " +:+ format_value season
                        +:+ " (" +:+ Py.str (len episodes) +:+ " episodes)"))
                <$> enumerate seasons 1)).
  split.
  - unfold select_season.
    unfold io_bind at 1. unfold lift at 1. rewrite Hdet.
    unfold io_bind at 1. unfold lift at 1. rewrite Hsort.
    unfold io_bind at 1. unfold lift at 1.
    unfold group_by_season. rewrite Hgroup.
    destruct (Z.eqb_spec (len seasons) 0) as [H0 | _].
    { unfold len in H0. destruct seasons; [done | cbn in H0; lia]. }
    unfold io_bind at 1. unfold print at 1, emit at 1. cbn [stdin trace].
    unfold io_bind at 1.
    rewrite (for_each_emit
               (fun '(idx, (season, episodes)) =>
                  Print (Py.str idx +:+ ": Season " +:+ format_value season
                         +:+ " (" +:+ Py.str (len episodes)
                         +:+ " episodes)")));
      [| by intros [idx [season episodes]]].
    cbn [stdin trace]. unfold while_true_reading. cbn [stdin length].
    cbn [while_true]. unfold io_bind at 1.
    rewrite select_season_round_text by done.
    by rewrite <- !app_assoc.
  - constructor; [by eexists |].
    apply Forall_fmap, Forall_forall.
    intros [idx [season episodes]] _. by eexists.
Qed.

(** The line "abc" before a valid choice: the run ends, the choice is not
    read. *)
Lemma select_season_exits_on_text_witness :
  exists listing,
    select_season [pilot] {| stdin := ["abc"; "1"]; trace := [] |}
    = (Raise (SystemExit 1),
       {| stdin := ["1"];
          trace := [] ++ listing
                   ++ [Prompt season_prompt;
                       Print "Please enter a valid number."] |})
    /\ Forall is_print listing.
Proof.
  apply (select_season_exits_on_text [pilot] "abc" ["1"] []); try done.
  intros r Hr. apply list_elem_of_singleton in Hr as ->.
  by exists "Show S1/E03 - Pilot".
Defined.

(** ** Classification and extraction together *)



(** A record that the program classifies as an episode carries, after the
    extraction, the season and the episode of the first marker in its
    title; they read as integers from 0 on when they are within the limit
    of [int], and one of them is refused when it is not.  Every other
    record is classified as a movie. *)
Lemma classified_episode_reads_as_numbers r0 t :
  title_of r0 = Ret t ->
  exists r1 r,
    update_video_type_of r0 = Ret r1
    /\ determine_season_and_episode_of r1 = Ret r
    /\ (has_marker t ->
        r !! "video-type" = Some (VStr VIDEO_TYPE_EPISODE)
        /\ exists s e,
             first_marker t s e
             /\ r !! "season" = Some (VStr s)
             /\ r !! "episode" = Some (VStr e)
             /\ (within_limit s -> within_limit e ->
                 exists zs ze,
                   Py.int s = Some zs /\ Py.int e = Some ze
                   /\ 0 <= zs /\ 0 <= ze)
             /\ (~ within_limit s \/ ~ within_limit e ->
                 Py.int s = None \/ Py.int e = None))
    /\ (~ has_marker t ->
        r !! "video-type" = Some (VStr VIDEO_TYPE_MOVIE)).
Proof.
  intros Ht.
  set (b := bool_decide (is_Some (Re.search Re.match_season_episode t))).
  set (r1 := <["video-type" :=
                 VStr (if b then VIDEO_TYPE_EPISODE else VIDEO_TYPE_MOVIE)]>
               r0).
  assert (Hr1 : update_video_type_of r0 = Ret r1).
  { unfold update_video_type_of, has_episode_marker. by rewrite Ht. }
  assert (Ht1 : title_of r1 = Ret t).
  { unfold title_of, get_or, r1 in *. by rewrite lookup_insert_ne. }
  exists r1. unfold determine_season_and_episode_of. rewrite Ht1. cbn.
  destruct (Re.search Re.match_season_episode t) as [[g1 g2] |] eqn:Hs.
  - eexists. split; [done |]. split; [done |].
    pose proof Hs as Hfirst. apply search_season_episode_first in Hfirst.
    split.
    + intros _. split.
      { rewrite !lookup_insert_ne by done. unfold r1.
        rewrite lookup_insert_eq. unfold b. by rewrite bool_decide_eq_true_2. }
      destruct Hfirst as (pre & post & (Heq & Hd1 & Hd2) & Hpost & Hmin).
      exists g1, g2.
      split; [by exists pre, post |].
      rewrite lookup_insert_ne, !lookup_insert_eq by done.
      split; [done |]. split; [done |]. split.
      * intros Hl1 Hl2.
        destruct (int_of_digits g1 Hd1 Hl1) as [Hi1 H01].
        destruct (int_of_digits g2 Hd2 Hl2) as [Hi2 H02].
        by exists (decimal 0 g1), (decimal 0 g2).
      * intros [Hl | Hl]; [left | right]; by apply int_of_long_digits.
    + intros Hno. destruct Hno.
      destruct Hfirst as (pre & post & Hat & _). by exists pre, g1, g2, post.
  - eexists. split; [done |]. split; [done |].
    apply search_season_episode_none in Hs. split; [done |].
    intros _. rewrite !lookup_insert_ne by done. unfold r1.
    rewrite lookup_insert_eq. unfold b.
    rewrite bool_decide_eq_false_2; [done |].
    by intros [x Hx].
Qed.

(** ** The loops of the two prompts *)

(** No round of the season prompt goes round again: it returns the
    selection, leaves the program, or fails at the end of the input. *)
Lemma select_season_round_never_repeats seasons w w' :
  select_season_round seasons w <> (Ret None, w').
Proof.
  unfold select_season_round.
  unfold io_bind at 1. unfold input at 1.
  destruct (stdin w) as [| choice rest]; [done |].
  destruct (negb (truthy (VStr choice)) || String.eqb (Py.lower choice) "y").
  { unfold io_bind, print, emit, io_ret. done. }
  unfold try_except_ValueError.
  unfold io_bind at 1. unfold lift at 1. cbn [int_value].
  destruct (Py.int choice) as [n |].
  - destruct ((1 <=? n) && (n <=? len seasons)).
    + unfold io_bind at 1. unfold lift at 1.
      unfold io_bind at 1. unfold lift at 1.
      unfold index. destruct (_ <? 0); [done |].
      destruct (_ !! _) as [selected |]; [| done].
      unfold io_bind at 1. unfold lift at 1.
      destruct (dict_lookup seasons selected) as [vs |]; [| done].
      unfold io_bind, print, emit, io_ret. done.
    + unfold io_bind, print, emit, exit, raise, lift. done.
  - unfold io_bind, print, emit, exit, raise, lift. done.
Qed.

(** A round of the topic prompt that goes round again has read a line. *)
Lemma select_topic_round_reads topics w w' :
  select_topic_round topics w = (Ret None, w') ->
  (length (stdin w') < length (stdin w))%nat.
Proof.
  unfold select_topic_round, try_except_ValueError.
  unfold io_bind at 1. unfold input at 1.
  destruct (stdin w) as [| line rest]; [done |].
  unfold io_bind at 1. unfold lift at 1. cbn [int_value].
  destruct (Py.int line) as [choice |].
  - destruct ((1 <=? choice) && (choice <=? len topics)).
    + unfold io_bind, lift, io_ret, index.
      destruct (choice - 1 <? 0); [done |].
      by destruct (topics !! Z.to_nat (choice - 1)).
    + unfold io_bind, print, emit, io_ret. cbn [stdin trace].
      intros [= <-]. cbn. lia.
  - unfold io_bind, print, emit, io_ret. cbn [stdin trace].
    intros [= <-]. cbn. lia.
Qed.

Lemma select_topic_round_in_bounds topics w w' :
  (select_topic_round topics w) <> (OutOfFuel, w').
Proof.
  unfold select_topic_round, try_except_ValueError.
  unfold io_bind at 1. unfold input at 1.
  destruct (stdin w) as [| line rest]; [done |].
  unfold io_bind at 1. unfold lift at 1. cbn [int_value].
  destruct (Py.int line) as [choice |].
  - destruct ((1 <=? choice) && (choice <=? len topics)).
    + unfold io_bind, lift, io_ret, index.
      destruct (choice - 1 <? 0); [done |].
      by destruct (topics !! Z.to_nat (choice - 1)).
    + unfold io_bind, print, emit, io_ret. done.
  - unfold io_bind, print, emit, io_ret. done.
Qed.

(** The loop of the topic prompt ends within the bound the model gives
    it: with a topic, or with an exception at the end of the input. *)
Lemma select_topic_loop_ends topics fuel : forall w,
  (length (stdin w) < fuel)%nat ->
  (while_true fuel (select_topic_round topics) w).1 <> OutOfFuel.
Proof.
  induction fuel as [| fuel IH]; intros w Hfuel; [lia |].
  cbn [while_true]. unfold io_bind.
  destruct (select_topic_round topics w) as [[[t |] | e |] w1] eqn:Hround.
  - done.
  - apply IH. apply select_topic_round_reads in Hround. lia.
  - done.
  - by apply select_topic_round_in_bounds in Hround.
Qed.

(** * Further properties of the program *)

(** ** File extensions *)

Lemma at_end_spec s : Re.at_end s = true <-> s = "" \/ s = nl.
Proof.
  unfold Re.at_end, nl. rewrite orb_true_iff.
  split; intros [H | H]; [left | right | left | right];
    by (apply String.eqb_eq in H || apply String.eqb_eq).
Qed.

Lemma at_end_not_alnum s :
  Re.at_end s = true -> starts_with Py.is_alnum s = false.
Proof. intros [-> | ->]%at_end_spec; reflexivity. Qed.

Lemma span_before_stop p x d y :
  p d = false ->
  exists x1 x2, Re.span p (x +:+ String d y) = (x1, x2 +:+ String d y).
Proof.
  intros Hd. induction x as [| c x IH].
  - exists "", "". change ("" +:+ String d y) with (String d y).
    cbn. by rewrite Hd.
  - rewrite app_cons. cbn [Re.span]. destruct (p c).
    + destruct IH as (x1 & x2 & ->). by exists (String c x1), x2.
    + by exists "", (String c x).
Qed.

(** Before the dot of the extension no match of the pattern starts. *)
Lemma match_extension_too_early c x g tail :
  g <> "" ->
  Re.match_extension (String c (x +:+ "." +:+ g +:+ tail)) = None.
Proof.
  intros Hg. unfold Re.match_extension.
  destruct (Re.literal "." (String c (x +:+ "." +:+ g +:+ tail)))
    as [r |] eqn:Hr; [| done].
  apply literal_spec in Hr. change ("." +:+ r) with (String "." r) in Hr.
  injection Hr as -> <-. cbn [mbind option_bind].
  change (x +:+ "." +:+ g +:+ tail) with (x +:+ String "." (g +:+ tail)).
  destruct (span_before_stop Py.is_alnum x "." (g +:+ tail) eq_refl)
    as (x1 & x2 & Hspan).
  unfold Re.some_of. rewrite Hspan.
  assert (Hend : Re.at_end (x2 +:+ String "." (g +:+ tail)) = false).
  { destruct (Re.at_end _) eqn:Hend; [| done].
    apply at_end_spec in Hend as [Hend | Hend].
    - by destruct x2.
    - destruct x2 as [| c2 x2].
      + change ("" +:+ String "." (g +:+ tail))
          with (String "." (g +:+ tail)) in Hend. by injection Hend.
      + rewrite app_cons in Hend. injection Hend as _ Hend.
        by destruct x2. }
  destruct x1; [done |]. cbn. by rewrite Hend.
Qed.

Lemma search_extension u g :
  ends_with_extension u g ->
  Re.search Re.match_extension u = Some g.
Proof.
  intros (pre & tail & -> & [Hne Hg] & Hend).
  induction pre as [| c pre IH].
  - change ("" +:+ "." +:+ g +:+ tail) with ("." +:+ g +:+ tail).
    assert (Hm : Re.match_extension ("." +:+ g +:+ tail) = Some g).
    { unfold Re.match_extension.
      apply bind_Some. exists (g +:+ tail).
      split; [by apply literal_spec |].
      apply bind_Some. exists (g, tail). split.
      - apply some_of_spec. repeat split; try done.
        by apply at_end_not_alnum.
      - by rewrite Hend. }
    change ("." +:+ g +:+ tail) with (String "." (g +:+ tail)) in *.
    cbn [Re.search]. by rewrite Hm.
  - rewrite app_cons. cbn [Re.search].
    by rewrite match_extension_too_early.
Qed.

Lemma search_extension_found u g :
  Re.search Re.match_extension u = Some g -> ends_with_extension u g.
Proof.
  intros Hs.
  destruct (search_found _ _ _ Hs) as (pre & rest & -> & Hm & _).
  unfold Re.match_extension in Hm.
  apply bind_Some in Hm as (r & Hr & Hm).
  apply bind_Some in Hm as ([a tail] & Ha & Hm).
  apply literal_spec in Hr as ->.
  apply some_of_spec in Ha as (-> & Hne & Halnum & _).
  destruct (Re.at_end tail) eqn:Hend; [| done].
  injection Hm as <-. by exists pre, tail.
Qed.

Lemma ends_with_extension_not_empty g : ~ ends_with_extension "" g.
Proof.
  intros (pre & tail & Heq & _). destruct pre; discriminate Heq.
Qed.

Lemma alnum_run_mp4 : alnum_run "mp4".
Proof. by split. Qed.

Lemma alnum_run_srt : alnum_run "srt".
Proof. by split. Qed.

(** The extension taken of a URL, with [dflt] standing for the default. *)
Lemma extension_of_url (dflt : string) u :
  let ext :=
    match Re.search Re.match_extension u with
    | Some g => "." +:+ g
    | None => "." +:+ dflt
    end in
  alnum_run dflt ->
  (forall g, ends_with_extension u g -> ext = "." +:+ g)
  /\ ((forall g, ~ ends_with_extension u g) -> ext = "." +:+ dflt)
  /\ exists g, ext = "." +:+ g /\ alnum_run g.
Proof.
  intros ext Hd. subst ext.
  destruct (Re.search Re.match_extension u) as [g0 |] eqn:Hs.
  - pose proof (search_extension_found u g0 Hs) as Hg0.
    repeat split.
    + intros g Hg. apply search_extension in Hg. congruence.
    + intros Hno. by destruct (Hno g0).
    + exists g0. split; [done |]. by destruct Hg0 as (? & ? & _ & ? & _).
  - repeat split.
    + intros g Hg. apply search_extension in Hg. congruence.
    + exists dflt. by split.
Qed.

(** X1: whatever the tier asked, the resolver returns a URL and an
    extension; the extension is a dot and a run of letters and digits: the
    run that ends the URL after its last dot (up to a final newline) when
    the URL ends so, and "mp4" otherwise or when there is no URL. *)
Theorem resolver_extension_of_url r q w :
  exists url ext w',
    get_video_url_by_quality r q w = (Ret (url, ext), w')
    /\ (exists g, ext = "." +:+ g /\ alnum_run g)
    /\ (forall u g, url = VStr u -> ends_with_extension u g ->
        ext = "." +:+ g)
    /\ ((forall u g, url = VStr u -> ~ ends_with_extension u g) ->
        ext = ".mp4").
Proof.
  assert (Hrun : exists url w',
            get_video_url_by_quality r q w
            = (Ret (url, video_file_extension url), w')).
  { destruct (quality_map q) as [k |] eqn:Hq.
    - eexists _, _. by apply get_video_url_by_quality_known.
    - unfold get_video_url_by_quality. rewrite Hq.
      unfold io_bind, io_ret, print, emit. cbn. eauto. }
  destruct Hrun as (url & w' & Hrun).
  exists url, (video_file_extension url), w'. split; [done |].
  destruct url as [| u].
  { cbn. split; [by exists "mp4" |]. split; [done | done]. }
  unfold video_file_extension.
  destruct (truthy (VStr u)) eqn:Htruthy.
  - destruct (extension_of_url "mp4" u alnum_run_mp4) as (Hyes & Hno & Hform).
    split; [exact Hform |]. split.
    + intros u' g [= <-]. apply Hyes.
    + intros Hnone. apply Hno. intros g. by apply Hnone.
  - assert (u = "") as ->.
    { cbn in Htruthy. by destruct (String.eqb_spec u ""). }
    split; [by exists "mp4" |]. split; [| done].
    intros u' g [= <-] Hg. by apply ends_with_extension_not_empty in Hg.
Qed.

(** X2: the subtitle URL is the field [url_subtitle] as it stands, null
    when missing; its extension is a dot and a run of letters and digits:
    the run that ends the URL when it ends so, and "srt" otherwise or when
    there is no URL. *)
Theorem subtitle_url_and_extension r :
  exists ext,
    get_subtitle_url r = (get r "url_subtitle", ext)
    /\ (exists g, ext = "." +:+ g /\ alnum_run g)
    /\ (forall u g, r !! "url_subtitle" = Some (VStr u) ->
        ends_with_extension u g -> ext = "." +:+ g)
    /\ (r !! "url_subtitle" = None -> ext = ".srt")
    /\ ((forall u g, r !! "url_subtitle" = Some (VStr u) ->
         ~ ends_with_extension u g) -> ext = ".srt").
Proof.
  exists (get_subtitle_url r).2. split; [done |].
  unfold get_subtitle_url, get.
  destruct (r !! "url_subtitle") as [[| u] |] eqn:Hr; cbn [default snd id].
  - split; [by exists "srt" |]. by repeat split.
  - destruct (truthy (VStr u)) eqn:Htruthy.
    + destruct (extension_of_url "srt" u alnum_run_srt)
        as (Hyes & Hno & Hform).
      split; [exact Hform |]. split; [| split; [done |]].
      * intros u' g [= <-]. apply Hyes.
      * intros Hnone. apply Hno. intros g. by apply Hnone.
    + assert (u = "") as ->.
      { cbn in Htruthy. by destruct (String.eqb_spec u ""). }
      split; [by exists "srt" |]. split; [| by split].
      intros u' g [= <-] Hg. by apply ends_with_extension_not_empty in Hg.
  - split; [by exists "srt" |]. by repeat split.
Qed.

(** ** Series and classification *)

Lemma has_marker_search t :
  has_marker t <-> is_Some (Re.search Re.match_season_episode t).
Proof.
  destruct (Re.search Re.match_season_episode t) as [[g1 g2] |] eqn:Hs.
  - split; [by eauto |]. intros _.
    apply search_season_episode_first in Hs as (pre & post & Hat & _).
    by exists pre, g1, g2, post.
  - apply search_season_episode_none in Hs.
    split; [done |]. by intros [x Hx].
Qed.

Lemma has_episode_marker_yes r t :
  title_of r = Ret t -> has_marker t -> has_episode_marker r = Ret true.
Proof.
  intros Ht Hm. unfold has_episode_marker. rewrite Ht. cbn.
  by rewrite bool_decide_eq_true_2 by by apply has_marker_search.
Qed.

Lemma has_episode_marker_no r t :
  title_of r = Ret t -> ~ has_marker t -> has_episode_marker r = Ret false.
Proof.
  intros Ht Hm. unfold has_episode_marker. rewrite Ht. cbn.
  rewrite bool_decide_eq_false_2; [done |].
  intros H. by apply Hm, has_marker_search.
Qed.

Lemma has_marker_dec t : has_marker t \/ ~ has_marker t.
Proof.
  destruct (Re.search Re.match_season_episode t) eqn:Hs.
  - left. apply has_marker_search. by rewrite Hs.
  - right. by apply search_season_episode_none.
Qed.

(** X3: the results are a series as soon as one title has a marker: the
    titles after the first one with a marker are not looked at (one that is
    null does no harm there); results whose titles are all without marker
    are not a series. *)
Theorem is_topic_is_series_any results :
  (forall l1 r l2 t,
     results = l1 ++ r :: l2 ->
     (forall x, x ∈ l1 -> exists tx, title_of x = Ret tx) ->
     title_of r = Ret t -> has_marker t ->
     is_topic_is_series results = Ret true)
  /\ ((forall r, r ∈ results ->
         exists t, title_of r = Ret t /\ ~ has_marker t) ->
      is_topic_is_series results = Ret false).
Proof.
  split.
  - intros l1 r l2 t -> Hl1 Ht Hm.
    induction l1 as [| x l1 IH]; cbn [app is_topic_is_series].
    + by rewrite (has_episode_marker_yes r t).
    + destruct (Hl1 x) as [tx Htx]; [left |].
      destruct (has_marker_dec tx) as [Hx | Hx].
      * by rewrite (has_episode_marker_yes x tx).
      * rewrite (has_episode_marker_no x tx) by done. cbn.
        apply IH. intros y Hy. apply Hl1. by right.
  - induction results as [| x l IH]; intros Hall; [done |].
    destruct (Hall x) as (tx & Htx & Hx); [left |].
    cbn [is_topic_is_series].
    rewrite (has_episode_marker_no x tx) by done. cbn.
    apply IH. intros y Hy. apply Hall. by right.
Qed.

(** Sample results: the marker of the second title settles it, the null
    title after it is not looked at; a trailer alone is no series. *)
Lemma is_topic_is_series_any_witness :
  is_topic_is_series [trailer; pilot; null_title] = Ret true
  /\ is_topic_is_series [trailer] = Ret false.
Proof.
  split.
  - apply (proj1 (is_topic_is_series_any [trailer; pilot; null_title])
             [trailer] pilot [null_title] "Show S1/E03 - Pilot").
    + reflexivity.
    + intros x Hx. apply list_elem_of_singleton in Hx as ->.
      by exists "Show - Trailer".
    + reflexivity.
    + apply has_marker_search. vm_compute. by eexists.
  - apply (proj2 (is_topic_is_series_any [trailer])).
    intros r Hr. apply list_elem_of_singleton in Hr as ->.
    exists "Show - Trailer". split; [reflexivity |].
    apply search_season_episode_none. by vm_compute.
Defined.

Lemma update_video_type_of_spec r t :
  title_of r = Ret t ->
  exists r', update_video_type_of r = Ret r' /\ classified r r'.
Proof.
  intros Ht. unfold update_video_type_of.
  destruct (has_marker_dec t) as [Hm | Hm].
  - rewrite (has_episode_marker_yes r t) by done. cbn.
    eexists. split; [done |]. exists t.
    split; [done |]. split; [| split].
    + intros k Hk. by rewrite lookup_insert_ne.
    + intros _. by rewrite lookup_insert_eq.
    + done.
  - rewrite (has_episode_marker_no r t) by done. cbn.
    eexists. split; [done |]. exists t.
    split; [done |]. split; [| split].
    + intros k Hk. by rewrite lookup_insert_ne.
    + done.
    + intros _. by rewrite lookup_insert_eq.
Qed.

(** X4: on records whose title is text, the classification returns the
    records with their type set: "episode" where the title has a marker,
    "movie" where it has none; no other field changes. *)
Theorem update_video_type_classifies results :
  (forall r, r ∈ results -> exists t, title_of r = Ret t) ->
  exists results',
    update_video_type results = Ret results'
    /\ Forall2 classified results results'.
Proof.
  intros Ht. apply mapM_outcome. intros r Hr.
  destruct (Ht r Hr) as [t Hrt].
  by apply (update_video_type_of_spec r t).
Qed.

Lemma update_video_type_classifies_witness :
  exists results',
    update_video_type [pilot; trailer] = Ret results'
    /\ Forall2 classified [pilot; trailer] results'.
Proof.
  apply (update_video_type_classifies [pilot; trailer]).
  intros r Hr. rewrite !elem_of_cons in Hr.
  destruct Hr as [-> | [-> | Hr]]; [| | by apply elem_of_nil in Hr].
  - by exists "Show S1/E03 - Pilot".
  - by exists "Show - Trailer".
Defined.

Lemma mapM_outcome_inv {A B} (f : A -> outcome B) l l' :
  mapM f l = Ret l' -> Forall2 (fun x y => f x = Ret y) l l'.
Proof.
  revert l'. induction l as [| x l IH]; intros l'.
  { intros [= <-]. constructor. }
  change (mapM f (x :: l)) with (y ← f x; k ← mapM f l; mret (y :: k)).
  destruct (f x) as [y | |] eqn:Hx; [| done | done]. cbn.
  destruct (mapM f l) as [k | |]; [| done | done]. cbn.
  intros [= <-]. constructor; [done | by apply IH].
Qed.

Lemma mapM_outcome_raises {A B} (f : A -> outcome B) e l :
  (forall x, x ∈ l -> (exists y, f x = Ret y) \/ f x = Raise e) ->
  (exists x, x ∈ l /\ f x = Raise e) ->
  mapM f l = Raise e.
Proof.
  induction l as [| x l IH]; intros Hall (x0 & Hin & Hx0).
  { by apply elem_of_nil in Hin. }
  change (mapM f (x :: l)) with (y ← f x; k ← mapM f l; mret (y :: k)).
  destruct (Hall x) as [[y Hy] | Hx]; [left | | by rewrite Hx].
  rewrite Hy. cbn.
  apply elem_of_cons in Hin as [-> | Hin]; [congruence |].
  rewrite IH; [done | | by exists x0].
  intros z Hz. apply Hall. by right.
Qed.




Lemma determine_season_and_episode_of_again r r' :
  determine_season_and_episode_of r = Ret r' ->
  determine_season_and_episode_of r' = Ret r'.
Proof.
  unfold determine_season_and_episode_of.
  destruct (title_of r) as [t | |] eqn:Ht; [| done | done]. cbn.
  intros Hr.
  assert (Ht' : title_of r' = Ret t).
  { destruct (Re.search Re.match_season_episode t) as [[g1 g2] |];
      injection Hr as <-; unfold title_of, get_or in *;
      by rewrite !lookup_insert_ne. }
  rewrite Ht'. cbn.
  destruct (Re.search Re.match_season_episode t) as [[g1 g2] |];
    injection Hr as <-; f_equal;
    by rewrite (insert_insert_ne _ "season" "episode"), insert_insert_eq,
      insert_insert_eq.
Qed.

(** X6: extracting season and episode from records that went through the
    extraction changes nothing. *)
Theorem determine_season_and_episode_idempotent results results' :
  determine_season_and_episode results = Ret results' ->
  determine_season_and_episode results' = Ret results'.
Proof.
  intros H%mapM_outcome_inv.
  induction H as [| r r' l l' Hr _ IH]; [done |].
  unfold determine_season_and_episode in *.
  change (mapM determine_season_and_episode_of (r' :: l'))
    with (z ← determine_season_and_episode_of r';
          k ← mapM determine_season_and_episode_of l'; mret (z :: k)).
  by rewrite (determine_season_and_episode_of_again r r'), IH.
Qed.

Lemma determine_season_and_episode_idempotent_witness :
  determine_season_and_episode
    [<["episode" := VStr "03"]> (<["season" := VStr "1"]> pilot);
     <["episode" := VNone]> (<["season" := VNone]> trailer)]
  = Ret [<["episode" := VStr "03"]> (<["season" := VStr "1"]> pilot);
         <["episode" := VNone]> (<["season" := VNone]> trailer)].
Proof.
  apply (determine_season_and_episode_idempotent [pilot; trailer]).
  reflexivity.
Defined.

(** X7: a record without title is treated as one with an empty title:
    season and episode are null; a title that is null makes the whole
    extraction fail with a type error. *)
Theorem determine_season_and_episode_titles results :
  (forall r, r ∈ results -> r !! "title" = None ->
     determine_season_and_episode_of r
     = Ret (<["episode" := VNone]> (<["season" := VNone]> r)))
  /\ ((exists r, r ∈ results /\ r !! "title" = Some VNone) ->
      determine_season_and_episode results = Raise TypeError).
Proof.
  split.
  - intros r _ Hr. unfold determine_season_and_episode_of, title_of, get_or.
    by rewrite Hr.
  - intros (r & Hin & Hr). apply mapM_outcome_raises.
    + intros x _. unfold determine_season_and_episode_of.
      destruct (title_of x) as [t | e |] eqn:Ht; cbn.
      * left. destruct (Re.search Re.match_season_episode t) as [[? ?] |];
          eauto.
      * right. unfold title_of in Ht.
        destruct (get_or x "title" (VStr "")); congruence.
      * unfold title_of in Ht.
        by destruct (get_or x "title" (VStr "")).
    + exists r. split; [done |].
      unfold determine_season_and_episode_of, title_of, get_or.
      by rewrite Hr.
Qed.

(** Sample records: one without title, and a list with a null title. *)
Lemma determine_season_and_episode_titles_witness :
  determine_season_and_episode_of no_title
  = Ret (<["episode" := VNone]> (<["season" := VNone]> no_title))
  /\ determine_season_and_episode [pilot; null_title] = Raise TypeError.
Proof.
  split.
  - apply (proj1 (determine_season_and_episode_titles [no_title]));
      [left | reflexivity].
  - apply (proj2 (determine_season_and_episode_titles [pilot; null_title])).
    exists null_title. split; [right; left | reflexivity].
Defined.

(** ** The dict of the seasons *)

Lemma dict_lookup_None seasons k :
  dict_lookup seasons k = None <-> k ∉ seasons.*1.
Proof.
  induction seasons as [| [k' vs] d IH]; cbn.
  { split; [intros _; apply not_elem_of_nil | done]. }
  rewrite not_elem_of_cons. destruct (decide (k = k')); [by split; [| intros []] |].
  rewrite IH. by split; [| intros []].
Qed.

Lemma dict_lookup_is_Some seasons k :
  is_Some (dict_lookup seasons k) <-> k ∈ seasons.*1.
Proof.
  rewrite <- not_eq_None_Some, dict_lookup_None.
  destruct (decide (k ∈ seasons.*1)); [split; [done | by intros _ ?] |].
  split; [intros H; by destruct H | done].
Qed.

Lemma dict_append_keys seasons k v : (dict_append seasons k v).*1 = seasons.*1.
Proof.
  induction seasons as [| [k' vs] d IH]; cbn; [done |].
  destruct (decide (k = k')); cbn; [done | by rewrite IH].
Qed.

Lemma dict_lookup_append seasons k v k' :
  dict_lookup (dict_append seasons k v) k'
  = if decide (k' = k) then (fun vs => vs ++ [v]) <$> dict_lookup seasons k'
    else dict_lookup seasons k'.
Proof.
  induction seasons as [| [k0 vs] d IH]; cbn.
  { by destruct (decide (k' = k)). }
  destruct (decide (k = k0)) as [-> | Hk]; cbn.
  - destruct (decide (k' = k0)) as [-> | Hk']; [done | done].
  - destruct (decide (k' = k0)) as [-> | Hk'].
    + by rewrite decide_False by done.
    + exact IH.
Qed.

Lemma dict_lookup_snoc seasons k vs k' :
  dict_lookup (seasons ++ [(k, vs)]) k'
  = match dict_lookup seasons k' with
    | Some ws => Some ws
    | None => if decide (k' = k) then Some vs else None
    end.
Proof.
  induction seasons as [| [k0 ws] d IH]; cbn; [done |].
  by destruct (decide (k' = k0)).
Qed.

Lemma dict_append_records seasons k v :
  k ∈ seasons.*1 ->
  concat (dict_append seasons k v).*2 ≡ₚ concat seasons.*2 ++ [v].
Proof.
  induction seasons as [| [k' vs] d IH]; cbn.
  { by intros ?%elem_of_nil. }
  intros Hin. destruct (decide (k = k')) as [-> | Hne]; cbn.
  - rewrite <- !app_assoc. f_equiv. apply Permutation_app_comm.
  - apply elem_of_cons in Hin as [? | Hin]; [done |].
    rewrite (IH Hin). by rewrite app_assoc.
Qed.

Lemma dict_lookup_at seasons i k vs :
  NoDup seasons.*1 -> seasons !! i = Some (k, vs) ->
  dict_lookup seasons k = Some vs.
Proof.
  revert i. induction seasons as [| [k' ws] d IH]; intros i Hnd Hi; [done |].
  cbn in Hnd. apply NoDup_cons in Hnd as [Hnin Hnd]. cbn.
  destruct i as [| i]; cbn in Hi.
  - injection Hi as -> ->. by rewrite decide_True.
  - destruct (decide (k = k')) as [-> | Hne]; [| by eapply IH].
    destruct Hnin. apply list_elem_of_fmap. exists (k', vs).
    split; [done |]. by eapply list_elem_of_lookup_2.
Qed.

(** One more record: its season becomes the last key when it is new, and
    the record becomes the last of its season. *)
Lemma add_to_season_step acc v k :
  v !! "season" = Some k ->
  exists seasons,
    add_to_season acc v = Ret seasons
    /\ seasons.*1 = acc.*1 ++ (if dict_lookup acc k is None then [k] else [])
    /\ (forall k', group_of seasons k'
                   = group_of acc k' ++ (if decide (k' = k) then [v] else []))
    /\ concat seasons.*2 ≡ₚ concat acc.*2 ++ [v].
Proof.
  intros Hk. unfold add_to_season, subscript. rewrite Hk. cbn.
  eexists. split; [done |].
  rewrite dict_append_keys. unfold group_of.
  destruct (dict_lookup acc k) as [ws |] eqn:Hacc.
  - split; [by rewrite app_nil_r |]. split.
    + intros k'. rewrite dict_lookup_append.
      destruct (decide (k' = k)) as [-> | Hne]; [| by rewrite app_nil_r].
      by rewrite Hacc.
    + apply dict_append_records, dict_lookup_is_Some. by rewrite Hacc.
  - split; [by rewrite fmap_app |]. split.
    + intros k'. rewrite dict_lookup_append, dict_lookup_snoc.
      destruct (decide (k' = k)) as [-> | Hne].
      * by rewrite Hacc.
      * rewrite app_nil_r. by destruct (dict_lookup acc k').
    + rewrite dict_append_records.
      * rewrite fmap_app, concat_app. cbn. by rewrite !app_nil_r.
      * rewrite fmap_app. apply elem_of_app. right. cbn. left.
Qed.

Lemma StronglySorted_remove {A} (R : A -> A -> Prop) l1 x l2 :
  StronglySorted R (l1 ++ x :: l2) -> StronglySorted R (l1 ++ l2).
Proof.
  induction l1 as [| y l1 IH]; cbn; intros H;
    apply StronglySorted_inv in H as [Hs Hf].
  - done.
  - constructor; [by apply IH |].
    rewrite Forall_app, Forall_cons in Hf. rewrite Forall_app. tauto.
Qed.

(** The grouping: the keys are the seasons in the order in which they come
    first, each once; every season holds its records in their order. *)
Lemma group_by_season_from_spec results : forall acc,
  (forall x, x ∈ results -> is_Some (x !! "season")) ->
  exists seasons,
    group_by_season_from acc results = Ret seasons
    /\ (NoDup acc.*1 -> NoDup seasons.*1)
    /\ (forall k, k ∈ seasons.*1 <->
          k ∈ acc.*1 \/ exists v, v ∈ results /\ v !! "season" = Some k)
    /\ (forall k, group_of seasons k
                  = group_of acc k
                    ++ filter (fun v => v !! "season" = Some k) results)
    /\ concat seasons.*2 ≡ₚ concat acc.*2 ++ results
    /\ (StronglySorted season_le
          (acc.*1 ++ ((fun v => get v "season") <$> results)) ->
        StronglySorted season_le seasons.*1).
Proof.
  induction results as [| x l IH]; intros acc Hl; cbn [group_by_season_from].
  { exists acc. split; [done |]. split; [done |]. split.
    - intros k. split; [by left |]. intros [? | (v & Hv & _)]; [done |].
      by apply elem_of_nil in Hv.
    - split; [intros k; by rewrite filter_nil, app_nil_r |].
      split; [by rewrite app_nil_r |]. cbn. by rewrite app_nil_r. }
  destruct (Hl x) as [k Hk]; [left |].
  destruct (add_to_season_step acc x k Hk)
    as (acc1 & Hstep & Hkeys1 & Hgroup1 & Hperm1).
  destruct (IH acc1) as (seasons & Hrun & Hnd & Hkeys & Hgroup & Hperm & Hsort).
  { intros y Hy. apply Hl. by right. }
  exists seasons. rewrite Hstep. cbn [mbind outcome_bind].
  split; [exact Hrun |].
  assert (Hget : get x "season" = k) by (unfold get; by rewrite Hk).
  split; [| split; [| split; [| split]]].
  - intros Hacc. apply Hnd. rewrite Hkeys1.
    destruct (dict_lookup acc k) eqn:Hlook; [by rewrite app_nil_r |].
    apply NoDup_app. split; [done |]. split; [| apply NoDup_singleton].
    intros y Hy Hyk. apply list_elem_of_singleton in Hyk as ->.
    by apply dict_lookup_None in Hlook.
  - intros k'. rewrite Hkeys, Hkeys1. split.
    + intros [Hin | (v & Hv & Hvk)].
      * apply elem_of_app in Hin as [Hin | Hin]; [by left |].
        right. exists x. split; [left |].
        destruct (dict_lookup acc k); [by apply elem_of_nil in Hin |].
        by apply list_elem_of_singleton in Hin as ->.
      * right. exists v. split; [by right | done].
    + intros [Hin | (v & Hv & Hvk)].
      * left. apply elem_of_app. by left.
      * apply elem_of_cons in Hv as [-> | Hv]; [| right; by exists v].
        left. assert (k' = k) as -> by congruence.
        destruct (dict_lookup acc k) eqn:Hlook.
        -- rewrite app_nil_r. apply dict_lookup_is_Some. by rewrite Hlook.
        -- apply elem_of_app. right. left.
  - intros k'. rewrite Hgroup, Hgroup1, filter_cons, <- app_assoc.
    f_equal. destruct (decide (k' = k)) as [-> | Hne].
    + by rewrite decide_True.
    + rewrite decide_False; [done | congruence].
  - rewrite Hperm, Hperm1. by rewrite <- app_assoc.
  - intros Hs. apply Hsort. rewrite Hkeys1.
    cbn [fmap list_fmap] in Hs. rewrite Hget in Hs.
    destruct (dict_lookup acc k).
    + rewrite app_nil_r. by eapply StronglySorted_remove.
    + by rewrite <- app_assoc.
Qed.

Lemma sorted_of_in_order {A K} (le : K -> K -> bool) (key : A -> K) l :
  StronglySorted (by_key le key) l -> sorted le key l = l.
Proof.
  induction 1 as [| x l Hl IH Hx]; cbn; [done |].
  fold (sorted le key l). rewrite IH.
  destruct l as [| y l]; cbn; [done |].
  apply Forall_cons in Hx as [Hxy _]. unfold by_key in Hxy. by rewrite Hxy.
Qed.

Lemma determine_season_and_episode_of_keys r r' :
  determine_season_and_episode_of r = Ret r' ->
  is_Some (r' !! "season") /\ is_Some (r' !! "episode").
Proof.
  unfold determine_season_and_episode_of.
  destruct (title_of r) as [t | |]; [| done | done]. cbn.
  destruct (Re.search Re.match_season_episode t) as [[g1 g2] |];
    intros [= <-];
    rewrite lookup_insert_ne, !lookup_insert_eq by done; eauto.
Qed.

(** What the first lines of the season selection compute. *)
Lemma seasons_of_results_spec results seasons :
  seasons_of_results results = Ret seasons ->
  exists annotated ordered,
    determine_season_and_episode results = Ret annotated
    /\ ordered_results results = Ret ordered
    /\ ordered = sorted pair_le season_episode_of annotated
    /\ NoDup seasons.*1
    /\ StronglySorted season_le seasons.*1
    /\ (forall k, k ∈ seasons.*1 ->
          dict_lookup seasons k
          = Some (filter (fun v => v !! "season" = Some k) ordered))
    /\ concat seasons.*2 ≡ₚ annotated
    /\ (seasons = [] <-> results = []).
Proof.
  unfold seasons_of_results, ordered_results.
  destruct (determine_season_and_episode results) as [annotated | |] eqn:Hdet;
    [| done | done].
  cbn [mbind outcome_bind].
  pose proof (mapM_outcome_inv _ _ _ Hdet) as HF.
  assert (Hkeys : forall x, x ∈ annotated ->
            is_Some (x !! "season") /\ is_Some (x !! "episode")).
  { intros x Hx. apply list_elem_of_lookup in Hx as [i Hi].
    destruct (Forall2_lookup_r _ _ _ _ _ HF Hi) as (r & _ & Hr).
    by eapply determine_season_and_episode_of_keys. }
  rewrite (sort_seasons_run annotated Hkeys). cbn [mbind outcome_bind].
  set (ordered := sorted pair_le season_episode_of annotated).
  destruct (group_by_season_from_spec ordered [])
    as (d & Hrun & Hnd & Hin & Hgroup & Hperm & Hsort).
  { intros x Hx. apply elem_of_sorted in Hx. by apply Hkeys. }
  unfold group_by_season. rewrite Hrun. intros [= <-].
  exists annotated, ordered.
  split; [done |]. split; [done |]. split; [done |].
  split; [apply Hnd; constructor |].
  split.
  { apply Hsort. cbn [fmap list_fmap app].
    apply (StronglySorted_fmap _ season_episode_le).
    - intros x y [Hlt | [Heq _]]; unfold season_le;
        unfold season_episode_of in *; cbn in *; lia.
    - eapply StronglySorted_impl;
        [| apply sorted_in_order; [apply pair_le_total | apply pair_le_trans]].
      intros x y Hxy. by apply pair_le_spec. }
  split.
  { intros k Hk. apply dict_lookup_is_Some in Hk as [vs Hvs].
    rewrite Hvs. f_equal. specialize (Hgroup k).
    unfold group_of in Hgroup. by rewrite Hvs in Hgroup. }
  split.
  { rewrite Hperm. cbn. apply sorted_perm. }
  split.
  - intros ->. cbn in Hperm.
    apply Permutation_nil_l in Hperm.
    assert (Hlen : length ordered = 0%nat) by by rewrite <- Hperm.
    unfold ordered in Hlen. rewrite sorted_length in Hlen.
    apply Forall2_length in HF. destruct results; [done | cbn in *; lia].
  - intros ->. cbn in Hdet. injection Hdet as <-.
    cbn in Hrun. by injection Hrun as <-.
Qed.

Lemma seasons_of_results_runs results :
  (forall r, r ∈ results -> exists t, title_of r = Ret t) ->
  exists seasons, seasons_of_results results = Ret seasons.
Proof.
  intros Ht.
  destruct (determine_season_and_episode_keys results Ht)
    as (annotated & Hdet & _ & Hkeys).
  unfold seasons_of_results, ordered_results. rewrite Hdet.
  cbn [mbind outcome_bind]. rewrite (sort_seasons_run annotated Hkeys).
  cbn [mbind outcome_bind].
  destruct (group_by_season_from_spec
              (sorted pair_le season_episode_of annotated) [])
    as (d & Hrun & _).
  { intros x Hx. apply elem_of_sorted in Hx. by apply Hkeys. }
  exists d. exact Hrun.
Qed.

(** ** The season prompt, round by round *)

Lemma select_season_prompts results seasons line rest tr :
  seasons_of_results results = Ret seasons -> seasons <> [] ->
  select_season results {| stdin := line :: rest; trace := tr |}
  = match select_season_round seasons
            {| stdin := line :: rest; trace := tr ++ season_listing seasons |}
    with
    | (Ret (Some selected), w') => (Ret selected, w')
    | (Ret None, w') =>
        while_true (length (line :: rest)) (select_season_round seasons) w'
    | (Raise e, w') => (Raise e, w')
    | (OutOfFuel, w') => (OutOfFuel, w')
    end.
Proof.
  intros Hs Hne. unfold seasons_of_results, ordered_results in Hs.
  unfold select_season.
  destruct (determine_season_and_episode results) as [annotated | |];
    [| done | done].
  cbn [mbind outcome_bind] in Hs.
  unfold io_bind at 1. unfold lift at 1.
  destruct (sort_seasons_by_season_and_episode annotated) as [ordered | |];
    [| done | done].
  cbn [mbind outcome_bind] in Hs.
  unfold io_bind at 1. unfold lift at 1.
  unfold io_bind at 1. unfold lift at 1. rewrite Hs.
  destruct (Z.eqb_spec (len seasons) 0) as [H0 | _].
  { unfold len in H0. destruct seasons; [done | cbn in H0; lia]. }
  unfold io_bind at 1. unfold print at 1, emit at 1. cbn [stdin trace].
  unfold io_bind at 1.
  rewrite (for_each_emit
             (fun '(idx, (season, episodes)) =>
                Print (Py.str idx +:+ ": Season " +:+ format_value season
                       +:+ " (" +:+ Py.str (len episodes)
                       +:+ " episodes)")));
    [| by intros [idx [season episodes]]].
  cbn [stdin trace]. unfold while_true_reading. cbn [stdin].
  cbn [while_true]. unfold io_bind at 1. rewrite <- app_assoc.
  change ([Print "Available seasons:"] ++ ?l) with (Print "Available seasons:" :: l).
  fold (season_listing seasons).
  by destruct (select_season_round seasons _) as [[[selected |] | e |] w'].
Qed.

Lemma lower_y_is_no_number line : Py.lower line = "y" -> Py.int line = None.
Proof.
  destruct line as [| c line]; [done |]. cbn [Py.lower].
  intros [= Hc Hrest]. destruct line; [| done]. clear Hrest.
  revert Hc.
  destruct c as [[] [] [] [] [] [] [] []]; vm_compute; congruence.
Qed.

Lemma number_is_a_choice line i :
  Py.int line = Some i ->
  negb (truthy (VStr line)) || String.eqb (Py.lower line) "y" = false.
Proof.
  intros Hint. apply orb_false_iff. split.
  - cbn. destruct (String.eqb_spec line "") as [-> | _]; [done | done].
  - destruct (String.eqb_spec (Py.lower line) "y") as [Hy | _]; [| done].
    apply lower_y_is_no_number in Hy. congruence.
Qed.

Lemma select_season_round_all seasons line rest tr :
  line = "" \/ Py.lower line = "y" ->
  select_season_round seasons {| stdin := line :: rest; trace := tr |}
  = (Ret (Some (concat seasons.*2)),
     {| stdin := rest;
        trace := tr ++ [Prompt season_prompt;
                        Print "Downloading all seasons."] |}).
Proof.
  intros Hall. unfold select_season_round.
  unfold io_bind at 1. unfold input at 1. cbn [stdin trace].
  assert (negb (truthy (VStr line)) || String.eqb (Py.lower line) "y" = true)
    as ->.
  { destruct Hall as [-> | ->]; [done |]. apply orb_true_r. }
  unfold io_bind, print, emit, io_ret. cbn [stdin trace].
  by rewrite <- app_assoc.
Qed.

Lemma select_season_round_out_of_range seasons line rest tr i :
  Py.int line = Some i -> ~ (1 <= i <= len seasons) ->
  select_season_round seasons {| stdin := line :: rest; trace := tr |}
  = (Raise (SystemExit 1),
     {| stdin := rest;
        trace := tr ++ [Prompt season_prompt;
                        Print ("Invalid selection: " +:+ line
                               +:+ ". Please select a valid season number.")] |}).
Proof.
  intros Hint Hout. unfold select_season_round.
  unfold io_bind at 1. unfold input at 1. cbn [stdin trace].
  rewrite (number_is_a_choice line i Hint).
  unfold try_except_ValueError.
  unfold io_bind at 1. unfold lift at 1. cbn [int_value]. rewrite Hint.
  destruct ((1 <=? i) && (i <=? len seasons)) eqn:Hin.
  { apply andb_true_iff in Hin as [?%Z.leb_le ?%Z.leb_le]. lia. }
  unfold io_bind, print, emit, exit, raise, lift. cbn [stdin trace].
  by rewrite <- app_assoc.
Qed.

Lemma select_season_round_choice seasons line rest tr i k episodes :
  NoDup seasons.*1 -> StronglySorted season_le seasons.*1 ->
  Py.int line = Some i -> 1 <= i ->
  seasons !! Z.to_nat (i - 1) = Some (k, episodes) ->
  select_season_round seasons {| stdin := line :: rest; trace := tr |}
  = (Ret (Some episodes),
     {| stdin := rest;
        trace := tr ++ [Prompt season_prompt;
                        Print (nl +:+ "Selected Season " +:+ format_value k
                               +:+ " with " +:+ Py.str (len episodes)
                               +:+ " episodes." +:+ nl)] |}).
Proof.
  intros Hnd Hsorted Hint Hi Hlook. unfold select_season_round.
  unfold io_bind at 1. unfold input at 1. cbn [stdin trace].
  rewrite (number_is_a_choice line i Hint).
  unfold try_except_ValueError.
  unfold io_bind at 1. unfold lift at 1. cbn [int_value]. rewrite Hint.
  assert (Hlen : i <= len seasons).
  { apply lookup_lt_Some in Hlook. unfold len. lia. }
  destruct ((1 <=? i) && (i <=? len seasons)) eqn:Hin.
  2:{ apply andb_false_iff in Hin as [?%Z.leb_gt | ?%Z.leb_gt]; lia. }
  unfold io_bind at 1. unfold lift at 1.
  rewrite (sorted_of_in_order Z.leb (fun s => valueOrElse s 0)).
  2:{ eapply StronglySorted_impl; [| exact Hsorted].
      intros a b Hab. by apply Z.leb_le. }
  unfold io_bind at 1. unfold lift at 1. unfold index.
  destruct (Z.ltb_spec (i - 1) 0); [lia |].
  rewrite list_lookup_fmap, Hlook. cbn [fmap option_fmap option_map fst].
  unfold io_bind at 1. unfold lift at 1.
  rewrite (dict_lookup_at seasons _ k episodes Hnd Hlook).
  unfold io_bind, print, emit, io_ret. cbn [stdin trace].
  by rewrite <- app_assoc.
Qed.

Lemma enumerate_lookup {A} (l : list A) : forall start n x,
  l !! n = Some x -> enumerate l start !! n = Some (start + Z.of_nat n, x).
Proof.
  induction l as [| y l IH]; intros start n x Hn; [done |].
  destruct n as [| n].
  - cbn in *. injection Hn as ->. f_equal. f_equal. lia.
  - change (enumerate (y :: l) start !! S n)
      with (enumerate l (start + 1) !! n).
    change ((y :: l) !! S n) with (l !! n) in Hn.
    rewrite (IH (start + 1) n x Hn). f_equal. f_equal. lia.
Qed.

(** X8: when the results give no season (there are no results), the
    selection returns the empty list and reads nothing.  Otherwise an empty
    line, "y" or "Y" selects every season: the records returned are the
    records of all the seasons, season after season, and are the records
    with season and episode of the extraction, each once. *)
Theorem select_season_all results seasons :
  seasons_of_results results = Ret seasons ->
  (seasons = [] ->
   results = []
   /\ forall w,
        select_season results w
        = (Ret [],
           {| stdin := stdin w;
              trace := trace w ++ [Print "No seasons found."] |}))
  /\ (seasons <> [] ->
      forall line rest tr,
        line = "" \/ Py.lower line = "y" ->
        select_season results {| stdin := line :: rest; trace := tr |}
        = (Ret (concat seasons.*2),
           {| stdin := rest;
              trace := tr ++ season_listing seasons
                       ++ [Prompt season_prompt;
                           Print "Downloading all seasons."] |})
        /\ exists annotated,
             determine_season_and_episode results = Ret annotated
             /\ concat seasons.*2 ≡ₚ annotated).
Proof.
  intros Hs.
  destruct (seasons_of_results_spec results seasons Hs)
    as (annotated & ordered & Hdet & _ & _ & _ & _ & _ & Hperm & Hempty).
  split.
  - intros ->. split; [by apply Hempty |].
    assert (results = []) as -> by by apply Hempty. reflexivity.
  - intros Hne line rest tr Hall. split; [| by exists annotated].
    rewrite (select_season_prompts results seasons) by done.
    rewrite select_season_round_all by done.
    by rewrite <- app_assoc.
Qed.

(** Sample run: the four titles and the line "Y". *)
Lemma select_season_all_witness :
  seasons_of_results four_titles = Ret four_seasons
  /\ select_season four_titles {| stdin := ["Y"]; trace := [] |}
     = (Ret (concat four_seasons.*2),
        {| stdin := [];
           trace := [] ++ season_listing four_seasons
                    ++ [Prompt season_prompt;
                        Print "Downloading all seasons."] |})
  /\ (title_of <$> concat four_seasons.*2)
     = [Ret "Bonus"; Ret "Show S1/E1"; Ret "Show S1/E2"; Ret "Show S2/E1"].
Proof.
  assert (Hs : seasons_of_results four_titles = Ret four_seasons)
    by (apply (bool_decide_unpack _); by vm_compute).
  destruct (select_season_all four_titles four_seasons Hs) as [_ Hall].
  destruct (Hall ltac:(done) "Y" [] [] (or_intror eq_refl)) as [Hrun _].
  split; [done |]. split; [done |]. reflexivity.
Defined.

(** X9: a number [i] from 1 to the number of seasons selects the season
    listed under [i]: the records returned are the records of that line of
    the listing, which are exactly the ordered records whose season is the
    key of the line. *)
Theorem select_season_choice results seasons line rest tr i k episodes :
  seasons_of_results results = Ret seasons ->
  Py.int line = Some i -> 1 <= i ->
  seasons !! Z.to_nat (i - 1) = Some (k, episodes) ->
  select_season results {| stdin := line :: rest; trace := tr |}
  = (Ret episodes,
     {| stdin := rest;
        trace := tr ++ season_listing seasons
                 ++ [Prompt season_prompt;
                     Print (nl +:+ "Selected Season " +:+ format_value k
                            +:+ " with " +:+ Py.str (len episodes)
                            +:+ " episodes." +:+ nl)] |})
  /\ season_listing seasons !! Z.to_nat i
     = Some (Print (Py.str i +:+ ": Season " +:+ format_value k +:+ " ("
                    +:+ Py.str (len episodes) +:+ " episodes)"))
  /\ exists ordered,
       ordered_results results = Ret ordered
       /\ episodes = filter (fun v => v !! "season" = Some k) ordered.
Proof.
  intros Hs Hint Hi Hlook.
  destruct (seasons_of_results_spec results seasons Hs)
    as (annotated & ordered & _ & Hord & _ & Hnd & Hsorted & Hgroup & _ & _).
  split; [| split].
  - rewrite (select_season_prompts results seasons); [| done |].
    + rewrite (select_season_round_choice seasons line rest _ i k episodes)
        by done.
      by rewrite <- app_assoc.
    + intros ->. by rewrite lookup_nil in Hlook.
  - unfold season_listing.
    replace (Z.to_nat i) with (S (Z.to_nat (i - 1))) by lia.
    rewrite lookup_cons, list_lookup_fmap.
    rewrite (enumerate_lookup seasons 1 _ _ Hlook).
    cbn [fmap option_fmap option_map].
    by replace (1 + Z.of_nat (Z.to_nat (i - 1))) with i by lia.
  - exists ordered. split; [done |].
    assert (Hk : k ∈ seasons.*1).
    { apply list_elem_of_fmap. exists (k, episodes).
      split; [done |]. by eapply list_elem_of_lookup_2. }
    pose proof (Hgroup k Hk) as Hfilter.
    rewrite (dict_lookup_at seasons _ k episodes Hnd Hlook) in Hfilter.
    by injection Hfilter.
Qed.

(** Sample run: the four titles and the choice 2, the season 1. *)
Lemma select_season_choice_witness :
  seasons_of_results four_titles = Ret four_seasons
  /\ select_season four_titles {| stdin := ["2"; "y"]; trace := [] |}
     = (Ret [with_season_episode "Show S1/E1" (VStr "1") (VStr "1");
             with_season_episode "Show S1/E2" (VStr "1") (VStr "2")],
        {| stdin := ["y"];
           trace := [] ++ season_listing four_seasons
                    ++ [Prompt season_prompt;
                        Print (nl +:+ "Selected Season 1 with 2 episodes."
                               +:+ nl)] |}).
Proof.
  assert (Hs : seasons_of_results four_titles = Ret four_seasons)
    by (apply (bool_decide_unpack _); by vm_compute).
  split; [done |].
  by destruct (select_season_choice four_titles four_seasons "2" ["y"] [] 2
                 (VStr "1")
                 [with_season_episode "Show S1/E1" (VStr "1") (VStr "1");
                  with_season_episode "Show S1/E2" (VStr "1") (VStr "2")]
                 Hs eq_refl ltac:(lia) eq_refl)
    as (Hrun & _).
Defined.

(** X10: a number that is no index of a season ends the run with the exit
    status 1, after the report of the invalid selection; nothing more is
    read. *)
Theorem select_season_out_of_range results seasons line rest tr i :
  seasons_of_results results = Ret seasons -> seasons <> [] ->
  Py.int line = Some i -> ~ (1 <= i <= len seasons) ->
  select_season results {| stdin := line :: rest; trace := tr |}
  = (Raise (SystemExit 1),
     {| stdin := rest;
        trace := tr ++ season_listing seasons
                 ++ [Prompt season_prompt;
                     Print ("Invalid selection: " +:+ line
                            +:+ ". Please select a valid season number.")] |}).
Proof.
  intros Hs Hne Hint Hout.
  rewrite (select_season_prompts results seasons) by done.
  rewrite (select_season_round_out_of_range seasons line rest _ i) by done.
  by rewrite <- app_assoc.
Qed.

(** Sample run: the four titles have three seasons; the choice 4. *)
Lemma select_season_out_of_range_witness :
  seasons_of_results four_titles = Ret four_seasons
  /\ select_season four_titles {| stdin := ["4"; "1"]; trace := [] |}
     = (Raise (SystemExit 1),
        {| stdin := ["1"];
           trace := [] ++ season_listing four_seasons
                    ++ [Prompt season_prompt;
                        Print "Invalid selection: 4. Please select a valid season number."] |}).
Proof.
  assert (Hs : seasons_of_results four_titles = Ret four_seasons)
    by (apply (bool_decide_unpack _); by vm_compute).
  split; [done |].
  apply (select_season_out_of_range four_titles four_seasons "4" ["1"] [] 4
           Hs).
  - done.
  - reflexivity.
  - unfold len. cbn. lia.
Defined.

(** ** The ends of the two loops *)

(** X11: when the input ends before a line is accepted, the topic
    selection fails with the end-of-file error, after it has put the prompt
    once for every line read and once more. *)
Theorem select_topic_end_of_input all_results bad tr :
  let topics := sorted_topics all_results in
  1 < len topics ->
  Forall (rejected topics) bad ->
  select_topic all_results {| stdin := bad; trace := tr |}
  = (Raise EOFError,
     {| stdin := [];
        trace := tr ++ topic_listing topics ++ retries bad
                 ++ [Prompt topic_prompt] |}).
Proof.
  intros topics Hmany Hbad.
  unfold select_topic. fold topics.
  destruct (Z.ltb_spec 1 (len topics)) as [_ | ?]; [| lia].
  unfold io_bind at 1. unfold print at 1, emit at 1. cbn [stdin trace].
  unfold io_bind at 1. rewrite select_topic_listing. cbn [stdin trace].
  unfold io_bind at 1. unfold while_true_reading. cbn [stdin].
  rewrite <- app_assoc.
  change ([Print "Multiple topics found:"]
          ++ ((fun '(idx, topic) => Print (Py.str idx +:+ ": " +:+ topic))
                <$> enumerate topics 1))
    with (topic_listing topics).
  rewrite (select_topic_loop_eof topics bad) by (done || lia).
  by rewrite <- !app_assoc.
Qed.

(** Sample run: topics A and B, one line that is no number, then the end
    of the input. *)
Lemma select_topic_end_of_input_witness :
  select_topic topics_a_a_b {| stdin := ["B"]; trace := [] |}
  = (Raise EOFError,
     {| stdin := [];
        trace :=
          [Print "Multiple topics found:"; Print "1: A"; Print "2: B";
           Prompt topic_prompt; Print "Please enter a valid number.";
           Prompt topic_prompt] |}).
Proof.
  rewrite (select_topic_end_of_input topics_a_a_b ["B"] []).
  - vm_compute. reflexivity.
  - replace (len (sorted_topics topics_a_a_b)) with 2
      by (vm_compute; reflexivity).
    lia.
  - apply Forall_cons. split; [by vm_compute | by apply Forall_nil].
Defined.

(** X12: against an index all of whose pages are successes that are not
    empty, pagination does not end: whatever the room given to the loop,
    the run uses it up and returns nothing. *)
Theorem query_api_never_ends post query use_title_field use_topic_field
    include_future_content fuel w :
  (forall k,
     goes_on (page_of post query use_title_field use_topic_field
                include_future_content k)) ->
  (query_api post fuel query use_title_field use_topic_field
     include_future_content w).1
  = OutOfFuel.
Proof.
  intros Hgo. unfold query_api, print. unfold io_bind at 1. unfold emit at 1.
  unfold io_bind at 1.
  pose proof (query_api_loop_goes_on post query use_title_field
                use_topic_field include_future_content fuel 0 []
                {| stdin := stdin w;
                   trace := trace w
                            ++ [Print ("Searching for '" +:+ query
                                       +:+ "'...")] |} Hgo) as Hloop.
  change (100 * Z.of_nat 0) with 0 in Hloop.
  destruct (query_api_loop _ _ _ _ _ _ _ _ _ _) as [[a | e |] w1];
    cbn in Hloop; try discriminate. done.
Qed.

Lemma query_api_never_ends_witness :
  (query_api endless_index 25 "news" true false false empty_world).1
  = OutOfFuel.
Proof.
  apply (query_api_never_ends endless_index "news" true false false 25).
  intros k. by split.
Defined.

(** ** The download loop *)






Lemma download_one_fails n folder title quality k subs i r e w :
  quality_map quality = Some k ->
  filename_base title r = Raise e ->
  download_one n folder title quality subs i r w = (Raise e, w).
Proof.
  intros Hq Hbase. unfold download_one.
  unfold io_bind at 1.
  rewrite (get_video_url_by_quality_known r quality k w Hq).
  unfold io_bind at 1. unfold lift at 1. by rewrite Hbase.
Qed.





(** ** The whole run *)

Lemma select_topic_of_nothing w :
  select_topic [] w
  = (Ret ([], VNone),
     {| stdin := stdin w;
        trace := trace w ++ [Print ("No topics found in results." +:+ nl)] |}).
Proof. reflexivity. Qed.

Lemma is_topic_is_series_none results :
  (forall r, r ∈ results -> exists t, title_of r = Ret t /\ ~ has_marker t) ->
  is_topic_is_series results = Ret false.
Proof.
  induction results as [| x l IH]; intros Hall; [done |].
  destruct (Hall x) as (tx & Htx & Hx); [left |].
  cbn [is_topic_is_series].
  rewrite (has_episode_marker_no x tx) by done. cbn.
  apply IH. intros y Hy. apply Hall. by right.
Qed.

(** X15: when the first page of the index is empty or a failure, the run
    ends with the exit status 1 after one request: nothing is asked of the
    user and nothing is downloaded. *)
Theorem search_and_download_all_without_results post fuel query folder
    quality subs use_title_field use_topic_field include_future_content w :
  let first_page :=
    page_of post query use_title_field use_topic_field
      include_future_content 0 in
  ~ goes_on first_page -> (0 < fuel)%nat ->
  search_and_download_all post fuel query folder quality subs
    use_title_field use_topic_field include_future_content w
  = (Raise (SystemExit 1),
     {| stdin := stdin w;
        trace :=
          trace w
          ++ [Print ("Searching for '" +:+ query +:+ "'...");
              Post (page_request query use_title_field use_topic_field
                      include_future_content 0)]
          ++ stop_report first_page
          ++ [Print ("Found 0 results." +:+ nl);
              Print "No results found for the given query."] |}).
Proof.
  intros first_page Hstop Hfuel.
  unfold search_and_download_all, query_api, print.
  unfold io_bind at 1. unfold io_bind at 1. unfold emit at 1.
  unfold io_bind at 1.
  change 0 with (100 * Z.of_nat 0) at 1.
  rewrite (query_api_loop_stops post query use_title_field use_topic_field
             include_future_content 0 fuel 0 []); [| intros k; lia | done | done].
  cbn [stdin trace app seq fmap list_fmap concat].
  unfold io_bind, emit, io_ret, exit, raise, lift. cbn [stdin trace].
  fold first_page. f_equal. f_equal.
  by rewrite <- !app_assoc.
Qed.

Lemma search_and_download_all_without_results_witness :
  search_and_download_all silent_index 3 "news" "out" "hd" true false false
    false {| stdin := ["1"]; trace := [] |}
  = (Raise (SystemExit 1),
     {| stdin := ["1"];
        trace :=
          [Print "Searching for 'news'...";
           Post (page_request "news" false false false 0);
           Print "Error querying API: 404";
           Print ("Found 0 results." +:+ nl);
           Print "No results found for the given query."] |}).
Proof.
  apply (search_and_download_all_without_results silent_index 3 "news" "out"
           "hd" true false false false {| stdin := ["1"]; trace := [] |}).
  - intros [H _]. by vm_compute in H.
  - lia.
Defined.

(** X16: when the records of the topic selected have no title with a
    marker, the run announces that this is no series and fails with the
    error of the missing implementation; the season prompt is not reached
    and nothing is downloaded. *)
Theorem search_and_download_all_not_a_series post fuel query folder quality
    subs use_title_field use_topic_field include_future_content
    w all_results w1 filtered topic w2 :
  query_api post fuel query use_title_field use_topic_field
    include_future_content w = (Ret all_results, w1) ->
  select_topic all_results w1 = (Ret (filtered, topic), w2) ->
  filtered <> [] ->
  (forall r, r ∈ filtered -> exists t, title_of r = Ret t /\ ~ has_marker t) ->
  search_and_download_all post fuel query folder quality subs
    use_title_field use_topic_field include_future_content w
  = (Raise (NotImplementedError "Single video download not implemented yet."),
     {| stdin := stdin w2;
        trace :=
          trace w2
          ++ [Print "This is not a series. Downloading the single video..."] |}).
Proof.
  intros Hquery Htopic Hne Hnone.
  unfold search_and_download_all.
  unfold io_bind at 1. rewrite Hquery.
  destruct all_results as [| r0 all_results].
  { rewrite select_topic_of_nothing in Htopic. by injection Htopic as <-. }
  unfold io_bind at 1. rewrite Htopic.
  destruct filtered as [| f filtered]; [done |].
  unfold io_bind at 1. unfold lift at 1.
  rewrite (is_topic_is_series_none (f :: filtered) Hnone).
  unfold io_bind, print, emit, raise, lift. done.
Qed.

Lemma search_and_download_all_not_a_series_witness :
  search_and_download_all film_index 3 "film" "out" "medium" false false
    false false {| stdin := ["y"]; trace := [] |}
  = (Raise (NotImplementedError "Single video download not implemented yet."),
     {| stdin := ["y"];
        trace :=
          [Print "Searching for 'film'...";
           Post (page_request "film" false false false 0);
           Post (page_request "film" false false false 1);
           Print ("Found 1 results." +:+ nl);
           Print ("Only one topic found: MyShow" +:+ nl)]
          ++ [Print "This is not a series. Downloading the single video..."]
     |}).
Proof.
  apply (search_and_download_all_not_a_series film_index 3 "film" "out"
           "medium" false false false false {| stdin := ["y"]; trace := [] |}
           [episode_hit "MyShow - the film" "http://host/f.mp4"]
           {| stdin := ["y"];
              trace := [Print "Searching for 'film'...";
                        Post (page_request "film" false false false 0);
                        Post (page_request "film" false false false 1);
                        Print ("Found 1 results." +:+ nl)] |}
           [episode_hit "MyShow - the film" "http://host/f.mp4"]
           (VStr "MyShow")
           {| stdin := ["y"];
              trace := [Print "Searching for 'film'...";
                        Post (page_request "film" false false false 0);
                        Post (page_request "film" false false false 1);
                        Print ("Found 1 results." +:+ nl);
                        Print ("Only one topic found: MyShow" +:+ nl)] |}).
  - apply (bool_decide_unpack _). by vm_compute.
  - apply (bool_decide_unpack _). by vm_compute.
  - done.
  - intros r Hr. apply list_elem_of_singleton in Hr as ->.
    exists "MyShow - the film". split; [reflexivity |].
    apply search_season_episode_none. by vm_compute.
Defined.

(** ** Numbers beyond the limit of [int] *)

(** X17: a record whose title shows a season or an episode of more digits
    than [int] reads is classified as an episode all the same; the episode
    code of its file name cannot be made, and the download of the record
    fails with [ValueError] before anything is announced or downloaded. *)
Theorem overlong_season_fails r0 r1 r s e title :
  update_video_type_of r0 = Ret r1 ->
  determine_season_and_episode_of r1 = Ret r ->
  r !! "season" = Some (VStr s) -> r !! "episode" = Some (VStr e) ->
  ~ within_limit s \/ ~ within_limit e ->
  r !! "video-type" = Some (VStr VIDEO_TYPE_EPISODE)
  /\ filename_base title r = Raise ValueError
  /\ forall n folder quality k subs i w,
       quality_map quality = Some k ->
       download_one n folder title quality subs i r w = (Raise ValueError, w).
Proof.
  intros Hr1 Hr Hs He Hlong.
  assert (Ht : exists t, title_of r0 = Ret t).
  { unfold update_video_type_of, has_episode_marker in Hr1.
    destruct (title_of r0) as [t | |]; [by exists t | done | done]. }
  destruct Ht as [t Ht].
  destruct (classified_episode_reads_as_numbers r0 t Ht)
    as (r1' & r' & Hr1' & Hr' & Hyes & _).
  rewrite Hr1 in Hr1'. injection Hr1' as <-.
  rewrite Hr in Hr'. injection Hr' as <-.
  assert (Hm : has_marker t).
  { destruct (has_marker_dec t) as [Hm | Hm]; [done |].
    assert (Ht1 : title_of r1 = Ret t).
    { unfold update_video_type_of in Hr1.
      rewrite (has_episode_marker_no r0 t) in Hr1 by done.
      injection Hr1 as <-.
      unfold title_of, get_or in *. by rewrite lookup_insert_ne. }
    unfold determine_season_and_episode_of in Hr. rewrite Ht1 in Hr.
    cbn in Hr.
    rewrite (proj2 (search_season_episode_none t) Hm) in Hr.
    injection Hr as <-.
    rewrite lookup_insert_ne, lookup_insert_eq in Hs by done. done. }
  destruct (Hyes Hm) as (Hv & s' & e' & _ & Hs' & He' & _ & Hnone).
  rewrite Hs in Hs'. injection Hs' as <-.
  rewrite He in He'. injection He' as <-.
  assert (Hbase : filename_base title r = Raise ValueError).
  { unfold filename_base, subscript. rewrite Hv. cbn.
    rewrite decide_True by done.
    by rewrite (episode_code_fails r s e) by auto. }
  split; [done |]. split; [done |].
  intros n folder quality k subs i w Hq.
  by apply (download_one_fails _ _ _ _ k).
Qed.

(** Sample record: a season of 4301 digits. *)
Lemma overlong_season_fails_witness :
  overlong_episode !! "video-type" = Some (VStr VIDEO_TYPE_EPISODE)
  /\ filename_base "Show" overlong_episode = Raise ValueError
  /\ forall n folder quality k subs i w,
       quality_map quality = Some k ->
       download_one n folder "Show" quality subs i overlong_episode w
       = (Raise ValueError, w).
Proof.
  apply (overlong_season_fails (hit overlong_title) overlong_typed
           overlong_episode overlong_season "1" "Show").
  - apply (bool_decide_unpack _). by vm_compute.
  - apply (bool_decide_unpack _). by vm_compute.
  - apply (bool_decide_unpack _). by vm_compute.
  - apply (bool_decide_unpack _). by vm_compute.
  - left. unfold within_limit. by vm_compute.
Defined.

(** ** What the season selection returns *)

Lemma dict_lookup_elem seasons k vs :
  dict_lookup seasons k = Some vs -> (k, vs) ∈ seasons.
Proof.
  induction seasons as [| [k' ws] d IH]; cbn; [done |].
  destruct (decide (k = k')) as [-> | _].
  - intros [= ->]. left.
  - intros H. right. by apply IH.
Qed.

Lemma elem_of_seasons (seasons : seasons_dict) k vs r :
  (k, vs) ∈ seasons -> r ∈ vs -> r ∈ concat seasons.*2.
Proof.
  induction seasons as [| [k' ws] d IH]; cbn.
  { by intros ?%elem_of_nil. }
  intros [[= <- <-] | Hin]%elem_of_cons Hr; apply elem_of_app; [by left |].
  right. by apply IH.
Qed.

(** No season of the dict is empty. *)
Lemma seasons_entries_nonempty results seasons :
  seasons_of_results results = Ret seasons ->
  forall k vs, (k, vs) ∈ seasons -> vs <> [].
Proof.
  unfold seasons_of_results, ordered_results.
  destruct (determine_season_and_episode results) as [annotated | |] eqn:Hdet;
    [| done | done].
  cbn [mbind outcome_bind].
  pose proof (mapM_outcome_inv _ _ _ Hdet) as HF.
  assert (Hkeys : forall x, x ∈ annotated ->
            is_Some (x !! "season") /\ is_Some (x !! "episode")).
  { intros x Hx. apply list_elem_of_lookup in Hx as [i Hi].
    destruct (Forall2_lookup_r _ _ _ _ _ HF Hi) as (r & _ & Hr).
    by eapply determine_season_and_episode_of_keys. }
  rewrite (sort_seasons_run annotated Hkeys). cbn [mbind outcome_bind].
  set (ordered := sorted pair_le season_episode_of annotated).
  destruct (group_by_season_from_spec ordered [])
    as (d & Hrun & Hnd & Hin & Hgroup & _).
  { intros x Hx. apply elem_of_sorted in Hx. by apply Hkeys. }
  unfold group_by_season. rewrite Hrun. intros [= <-] k vs Hk ->.
  assert (Hkey : k ∈ d.*1).
  { apply list_elem_of_fmap. by exists (k, []). }
  apply list_elem_of_lookup in Hk as [i Hi].
  pose proof (dict_lookup_at d i k [] (Hnd (NoDup_nil_2)) Hi) as Hlook.
  specialize (Hgroup k). unfold group_of in Hgroup.
  rewrite Hlook in Hgroup. cbn in Hgroup.
  apply Hin in Hkey as [Hkey | (v & Hv & Hvk)].
  { by apply elem_of_nil in Hkey. }
  assert (Hf : v ∈ filter (fun v => v !! "season" = Some k) ordered).
  { apply list_elem_of_filter. by split. }
  rewrite <- Hgroup in Hf. by apply elem_of_nil in Hf.
Qed.

Lemma select_season_round_selects seasons w selected w' :
  select_season_round seasons w = (Ret (Some selected), w') ->
  selected = concat seasons.*2 \/ exists k, (k, selected) ∈ seasons.
Proof.
  unfold select_season_round.
  unfold io_bind at 1. unfold input at 1.
  destruct (stdin w) as [| choice rest]; [done |].
  destruct (negb (truthy (VStr choice)) || String.eqb (Py.lower choice) "y").
  { unfold io_bind, print, emit, io_ret. intros [= <- _]. by left. }
  unfold try_except_ValueError.
  unfold io_bind at 1. unfold lift at 1. cbn [int_value].
  destruct (Py.int choice) as [n |].
  - destruct ((1 <=? n) && (n <=? len seasons)).
    + unfold io_bind at 1. unfold lift at 1.
      unfold io_bind at 1. unfold lift at 1.
      unfold index. destruct (_ <? 0); [done |].
      destruct (_ !! _) as [k |]; [| done].
      unfold io_bind at 1. unfold lift at 1.
      destruct (dict_lookup seasons k) as [vs |] eqn:Hlook; [| done].
      unfold io_bind, print, emit, io_ret. intros [= <- _].
      right. exists k. by apply dict_lookup_elem.
    + unfold io_bind, print, emit, exit, raise, lift. done.
  - unfold io_bind, print, emit, exit, raise, lift. done.
Qed.

Lemma select_season_inv results w selected w' :
  select_season results w = (Ret selected, w') ->
  exists seasons,
    seasons_of_results results = Ret seasons
    /\ ((seasons = [] /\ selected = [])
        \/ (seasons <> []
            /\ (selected = concat seasons.*2
                \/ exists k, (k, selected) ∈ seasons))).
Proof.
  unfold select_season, seasons_of_results, ordered_results.
  intros Hrun.
  apply io_bind_inv in Hrun as (annotated & w1 & Hdet & Hrun).
  unfold lift in Hdet. injection Hdet as Hdet <-.
  apply io_bind_inv in Hrun as (ordered & w1 & Hord & Hrun).
  unfold lift in Hord. injection Hord as Hord <-.
  apply io_bind_inv in Hrun as (seasons & w1 & Hgroup & Hrun).
  unfold lift in Hgroup. injection Hgroup as Hgroup <-.
  exists seasons. rewrite Hdet. cbn [mbind outcome_bind].
  rewrite Hord. cbn [mbind outcome_bind]. split; [done |].
  destruct (Z.eqb_spec (len seasons) 0) as [H0 | H0].
  - left. unfold io_bind, print, emit, io_ret in Hrun.
    injection Hrun as <- _.
    split; [| done]. unfold len in H0. destruct seasons; [done | cbn in H0; lia].
  - right. split; [by intros -> |].
    apply io_bind_inv in Hrun as ([] & w2 & _ & Hrun).
    apply io_bind_inv in Hrun as ([] & w3 & _ & Hrun).
    unfold while_true_reading in Hrun. cbn [while_true] in Hrun.
    apply io_bind_inv in Hrun as (r & w4 & Hround & Hrun).
    destruct r as [sel |].
    + unfold io_ret in Hrun. injection Hrun as <- _.
      by eapply select_season_round_selects.
    + by apply select_season_round_never_repeats in Hround.
Qed.

Lemma select_season_selection results w selected w' :
  select_season results w = (Ret selected, w') ->
  exists annotated,
    determine_season_and_episode results = Ret annotated
    /\ (forall r, r ∈ selected -> r ∈ annotated)
    /\ (results <> [] -> selected <> [])
    /\ (results = [] -> selected = []).
Proof.
  intros Hrun.
  destruct (select_season_inv results w selected w' Hrun)
    as (seasons & Hs & Hsel).
  destruct (seasons_of_results_spec results seasons Hs)
    as (annotated & ordered & Hdet & _ & _ & _ & _ & _ & Hperm & Hempty).
  pose proof (seasons_entries_nonempty results seasons Hs) as Hfull.
  exists annotated. split; [done |].
  destruct Hsel as [[-> ->] | [Hne Hsel]].
  { split; [by intros r ?%elem_of_nil |]. split; [| done].
    intros Hres. destruct Hres. by apply Hempty. }
  split; [| split].
  - intros r Hr. rewrite <- Hperm.
    destruct Hsel as [-> | [k Hk]]; [done |]. by apply (elem_of_seasons _ k selected).
  - intros _. destruct Hsel as [-> | [k Hk]]; [| by apply (Hfull k)].
    destruct seasons as [| [k vs] d]; [done |]. cbn.
    pose proof (Hfull k vs ltac:(left)) as Hvs.
    by destruct vs.
  - intros Hres. apply Hempty in Hres. done.
Qed.


(** X18: when the season selection returns, it returns the records of all
    the seasons or those of one season of the dict; they are records of the
    extraction, that is results with their season and episode; and there is
    one at least unless there were no results, so that after a selection
    among results the branch of lines 306-308 is not taken. *)
Theorem select_season_returns results w selected w' :
  select_season results w = (Ret selected, w') ->
  exists seasons annotated,
    seasons_of_results results = Ret seasons
    /\ determine_season_and_episode results = Ret annotated
    /\ (selected = concat seasons.*2 \/ exists k, (k, selected) ∈ seasons)
    /\ (forall r, r ∈ selected -> r ∈ annotated)
    /\ (results <> [] -> selected <> [])
    /\ (results = [] -> selected = []).
Proof.
  intros Hrun.
  destruct (select_season_inv results w selected w' Hrun)
    as (seasons & Hs & Hsel).
  destruct (select_season_selection results w selected w' Hrun)
    as (annotated & Hdet & Hsub & Hne & Hnone).
  exists seasons, annotated.
  split; [done |]. split; [done |]. split; [| done].
  destruct Hsel as [[-> ->] | [_ Hsel]]; [by left | done].
Qed.

(** Sample run: the four titles and the choice 3, the season 2. *)
Lemma select_season_returns_witness :
  exists seasons annotated,
    seasons_of_results four_titles = Ret seasons
    /\ determine_season_and_episode four_titles = Ret annotated
    /\ ([with_season_episode "Show S2/E1" (VStr "2") (VStr "1")]
        = concat seasons.*2
        \/ exists k,
             (k, [with_season_episode "Show S2/E1" (VStr "2") (VStr "1")])
             ∈ seasons)
    /\ (forall r,
          r ∈ [with_season_episode "Show S2/E1" (VStr "2") (VStr "1")] ->
          r ∈ annotated)
    /\ (four_titles <> [] ->
        [with_season_episode "Show S2/E1" (VStr "2") (VStr "1")] <> [])
    /\ (four_titles = [] ->
        [with_season_episode "Show S2/E1" (VStr "2") (VStr "1")] = []).
Proof.
  apply (select_season_returns four_titles
           {| stdin := ["3"]; trace := [] |}
           [with_season_episode "Show S2/E1" (VStr "2") (VStr "1")]
           {| stdin := [];
              trace := season_listing four_seasons
                       ++ [Prompt season_prompt;
                           Print (nl +:+ "Selected Season 2 with 1 episodes."
                                  +:+ nl)] |}).
  apply (bool_decide_unpack _). by vm_compute.
Defined.

(** ** A run over a series *)







